(** * FAISS viewer: the index connection and query manager

    A shallow embedding of [FaissDataProvider] (src/src/extension.ts): the
    operations [connectToIndex], [refresh], [searchVectors],
    [getMemoryById], [getAllMemories] and [disconnect], the tree view
    ([getTreeItem], [getChildren], [FaissItem]), the connect command, the
    restoring of the saved path at activation, the part of the webview
    message handler that pairs search results with distances, and the
    script that pages and filters the records in the vector view.

    The provider is stateful and talks to the file system, to the editor
    host and to the vector-index engine.  Its methods are embedded as
    computations in a state-and-exception monad over a [World] that holds
    the provider's fields, the host's persisted key-value store, the file
    system and a trace of the observable calls (console, error pop-ups,
    context keys, change notifications, engine searches).  Everything the
    outside world decides (the clock, whether a file operation fails, what
    the JSON parser, the base64 decoder and the engine return) is read from
    an [Env] of oracles, so that every statement below quantifies over all
    behaviours of the collaborators.

    Three conventions.  The operations are written for a single stream of
    control, so an [await] runs the awaited call to its end.  The calls
    into the editor host (console, error pop-ups, [globalState.update],
    [setContext], [fire]) succeed: they change the world and never throw.
    The labels an engine search returns are integral numbers. *)

From Stdlib Require Import ZArith QArith String List Lia Sorted.
From stdpp Require Import gmap strings pretty.

Open Scope string_scope.
Open Scope list_scope.
Open Scope Z_scope.

(** ** JavaScript values *)

#[local] Set Warnings "-register-all".

(** The values [JSON.parse] produces, plus [undefined].  Numbers are only
    passed around and tested for truthiness, never computed with. *)
Inductive jsval : Type :=
| VUndefined
| VNull
| VBool (b : bool)
| VNum (q : Q)
| VStr (s : string)
| VArr (items : list jsval)
| VObj (fields : list (string * jsval)).

(** Thrown values: an error object with its [name] and [message]. *)
Record exn : Type := mkExn { exn_name : string; exn_message : string }.

Definition Error (msg : string) : exn := mkExn "Error" msg.
Definition TypeError (msg : string) : exn := mkExn "TypeError" msg.

(** [Error.prototype.toString], used by the template literals [`${error}`]. *)
Definition exn_toString (e : exn) : string :=
  if String.eqb (exn_name e) "" then exn_message e
  else if String.eqb (exn_message e) "" then exn_name e
  else exn_name e ++ ": " ++ exn_message e.

Inductive Res (A : Type) : Type :=
| Ok (a : A)
| Throw (e : exn).
Arguments Ok {A} a.
Arguments Throw {A} e.

(** JavaScript truthiness, as used by [!data.index]. *)
Definition truthy (v : jsval) : bool :=
  match v with
  | VUndefined | VNull => false
  | VBool b => b
  | VNum q => negb (Qeq_bool q 0)
  | VStr s => negb (String.eqb s "")
  | VArr _ | VObj _ => true
  end.

Fixpoint assoc (k : string) (fields : list (string * jsval)) : option jsval :=
  match fields with
  | [] => None
  | (k', v) :: rest => if String.eqb k k' then Some v else assoc k rest
  end.

Definition or_undefined (o : option jsval) : jsval :=
  match o with Some v => v | None => VUndefined end.

(** [data.key] for the two keys the provider reads, [memories] and [index]
    (neither is a built-in property of any prototype): reading a property
    of [null] or [undefined] throws, an object answers with its own field,
    anything else answers [undefined]. *)
Definition get_field (data : jsval) (key : string) : Res jsval :=
  match data with
  | VUndefined =>
      Throw (TypeError ("Cannot read properties of undefined (reading '"
                        ++ key ++ "')"))
  | VNull =>
      Throw (TypeError ("Cannot read properties of null (reading '"
                        ++ key ++ "')"))
  | VObj fields => Ok (or_undefined (assoc key fields))
  | _ => Ok VUndefined
  end.

Definition nth_char (s : string) (n : nat) : jsval :=
  match String.get n s with
  | Some c => VStr (String c EmptyString)
  | None => VUndefined
  end.

(** [items[idx]] on an array, for an integral number [idx]: the element at
    that position, [undefined] outside the bounds (negative positions
    included). *)
Definition array_get (items : list jsval) (idx : Z) : jsval :=
  if idx <? 0 then VUndefined else or_undefined (items !! Z.to_nat idx).

(** [xs[idx]] in general: besides arrays, a string answers with the
    character at that position and an object with the field named by the
    decimal spelling of [idx]; [null] and [undefined] throw. *)
Definition get_index (xs : jsval) (idx : Z) : Res jsval :=
  match xs with
  | VUndefined =>
      Throw (TypeError ("Cannot read properties of undefined (reading '"
                        ++ pretty idx ++ "')"))
  | VNull =>
      Throw (TypeError ("Cannot read properties of null (reading '"
                        ++ pretty idx ++ "')"))
  | VArr items => Ok (array_get items idx)
  | VStr s =>
      Ok (if idx <? 0 then VUndefined else nth_char s (Z.to_nat idx))
  | VObj fields => Ok (or_undefined (assoc (pretty idx) fields))
  | _ => Ok VUndefined
  end.

(** ** The engine, the world and the environment *)

(** An open index of the faiss-node engine (src/src/types.ts), as an
    opaque handle. *)
Definition Index : Type := N.

(** [SearchResult] of src/src/types.ts: two parallel typed arrays.  Labels
    are row numbers (the engine answers -1 when it has no neighbour). *)
Record SearchResult : Type := mkSearchResult {
  indices : list Z;
  distances : list Q
}.

Inductive event : Type :=
| ConsoleLog (msg : string)
| ConsoleError (msg : string) (e : exn)
| ConsoleWarn (msg : string) (e : exn)
| ShowErrorMessage (msg : string)
| SetContext (key : string) (v : bool)
| Fire
| EngineSearch (h : Index) (vector : list Q) (k : Z)
| PostSearchResults (results : list (jsval * option Q)).

Record World : Type := mkWorld {
  faissIndex : option Index;            (* this.faissIndex, null = None *)
  indexPath : option string;            (* this.indexPath *)
  memories : jsval;                     (* this.memories : any[] *)
  globalState : gmap string string;     (* context.globalState *)
  files : gmap string (list Byte.byte); (* the file system *)
  trace : list event                    (* observable calls, latest first *)
}.

(** What the collaborators decide. *)
Record Env : Type := mkEnv {
  Date_now : Z;
  os_tmpdir : string;
  (* an existing file may still fail to be read *)
  readFileSync_error : string -> option exn;
  JSON_parse : string -> Res jsval;
  (* Buffer.from(x, 'base64') *)
  Buffer_from_base64 : jsval -> Res (list Byte.byte);
  (* the error raised by the write, if any, and the content the file has
     afterwards ([None]: the path is left as it was) *)
  writeFileSync_outcome :
    string -> list Byte.byte -> option exn * option (list Byte.byte);
  unlinkSync_error : string -> option exn;
  (* Index.read(path), given what the file holds *)
  Index_read : string -> option (list Byte.byte) -> Res Index;
  (* index.search(vector, k) *)
  Index_search : Index -> list Q -> Z -> Res SearchResult
}.

(** ** The monad of provider code *)

Definition M (S A : Type) : Type := S -> Res A * S.

Definition ret {S A} (a : A) : M S A := fun s => (Ok a, s).

Definition throw {S A} (e : exn) : M S A := fun s => (Throw e, s).

Definition bind {S A B} (m : M S A) (k : A -> M S B) : M S B :=
  fun s =>
    match m s with
    | (Ok a, s') => k a s'
    | (Throw e, s') => (Throw e, s')
    end.

Definition lift {S A} (r : Res A) : M S A := fun s => (r, s).

(** [try { body } catch (e) { handler e }] *)
Definition try_catch {S A} (body : M S A) (handler : exn -> M S A) : M S A :=
  fun s =>
    match body s with
    | (Ok a, s') => (Ok a, s')
    | (Throw e, s') => handler e s'
    end.

(** [try { body } finally { cleanup }]: the cleanup runs on both exits and
    the body's outcome stands unless the cleanup itself throws. *)
Definition try_finally {S A} (body : M S A) (cleanup : M S unit) : M S A :=
  fun s =>
    let '(r, s') := body s in
    match cleanup s' with
    | (Ok _, s'') => (r, s'')
    | (Throw e, s'') => (Throw e, s'')
    end.

Declare Scope js_scope.
Delimit Scope js_scope with js.
Notation "x <- c1 ;; c2" := (bind c1 (fun x => c2))
  (at level 100, c1 at next level, c2 at level 200, right associativity)
  : js_scope.
Notation "c1 ;; c2" := (bind c1 (fun _ => c2))
  (at level 100, c2 at level 200, right associativity) : js_scope.
Open Scope js_scope.

Definition when_throw {S} (c : bool) (e : exn) : M S unit :=
  if c then throw e else ret tt.

(** ** Primitive operations on the world *)

Definition emit (ev : event) : M World unit :=
  fun w => (Ok tt,
            mkWorld (faissIndex w) (indexPath w) (memories w)
                    (globalState w) (files w) (ev :: trace w)).

Definition console_log (msg : string) := emit (ConsoleLog msg).
Definition console_error (msg : string) (e : exn) := emit (ConsoleError msg e).
Definition console_warn (msg : string) (e : exn) := emit (ConsoleWarn msg e).
Definition showErrorMessage (msg : string) := emit (ShowErrorMessage msg).
Definition setContext (key : string) (v : bool) := emit (SetContext key v).
Definition fire : M World unit := emit Fire.

Definition set_faissIndex (h : option Index) : M World unit :=
  fun w => (Ok tt,
            mkWorld h (indexPath w) (memories w)
                    (globalState w) (files w) (trace w)).

Definition set_indexPath (p : option string) : M World unit :=
  fun w => (Ok tt,
            mkWorld (faissIndex w) p (memories w)
                    (globalState w) (files w) (trace w)).

Definition set_memories (v : jsval) : M World unit :=
  fun w => (Ok tt,
            mkWorld (faissIndex w) (indexPath w) v
                    (globalState w) (files w) (trace w)).

Definition set_files (fs : gmap string (list Byte.byte)) (w : World) : World :=
  mkWorld (faissIndex w) (indexPath w) (memories w)
          (globalState w) fs (trace w).

(** [globalState.update(key, v)]; [undefined] removes the key. *)
Definition globalState_update (key : string) (v : option string)
  : M World unit :=
  fun w => (Ok tt,
            mkWorld (faissIndex w) (indexPath w) (memories w)
                    (match v with
                     | Some s => <[key := s]> (globalState w)
                     | None => delete key (globalState w)
                     end)
                    (files w) (trace w)).

Definition existsSync (p : string) : M World bool :=
  fun w => (Ok (bool_decide (is_Some (files w !! p))), w).

Definition ENOENT (p : string) : exn :=
  mkExn "Error" ("ENOENT: no such file or directory, '" ++ p ++ "'").

(** [fs.readFileSync(p, 'utf-8')] *)
Definition readFileSync (env : Env) (p : string) : M World string :=
  fun w =>
    match files w !! p with
    | None => (Throw (ENOENT p), w)
    | Some content =>
        match readFileSync_error env p with
        | Some e => (Throw e, w)
        | None => (Ok (string_of_list_byte content), w)
        end
    end.

Definition writeFileSync (env : Env) (p : string) (buf : list Byte.byte)
  : M World unit :=
  fun w =>
    let '(err, after) := writeFileSync_outcome env p buf in
    let w' := match after with
              | Some content => set_files (<[p := content]> (files w)) w
              | None => w
              end in
    (match err with Some e => Throw e | None => Ok tt end, w').

(** [fs.statSync(p).size] *)
Definition statSync_size (p : string) : M World Z :=
  fun w =>
    match files w !! p with
    | None => (Throw (ENOENT p), w)
    | Some content => (Ok (Z.of_nat (length content)), w)
    end.

Definition unlinkSync (env : Env) (p : string) : M World unit :=
  fun w =>
    match unlinkSync_error env p with
    | Some e => (Throw e, w)
    | None =>
        match files w !! p with
        | None => (Throw (ENOENT p), w)
        | Some _ => (Ok tt, set_files (delete p (files w)) w)
        end
    end.

Definition Index_read_file (env : Env) (p : string) : M World Index :=
  fun w => (Index_read env p (files w !! p), w).

(** [path.join(dir, name)] for a directory and a plain file name. *)
Definition path_join (dir name : string) : string :=
  if String.eqb dir "" then name else dir ++ "/" ++ name.

(** ** connectToIndex *)

(** The frame of one call: the world and the local variable [tempPath]. *)
Record Frame : Type := mkFrame { world : World; tempPath : option string }.

Definition io {A} (m : M World A) : M Frame A :=
  fun f => let '(r, w) := m (world f) in (r, mkFrame w (tempPath f)).

Definition set_tempPath (p : string) : M Frame unit :=
  fun f => (Ok tt, mkFrame (world f) (Some p)).

Definition get_tempPath : M Frame (option string) :=
  fun f => (Ok (tempPath f), f).

Definition staging_path (env : Env) : string :=
  path_join (os_tmpdir env)
            ("temp_faiss_" ++ pretty (Date_now env) ++ ".index").

(** Lines 38-46 of the [try] block: read and parse the JSON file, keep
    its [memories]. *)
Definition read_bundle (env : Env) (filePath : string) : M Frame jsval :=
  io (console_log ("Attempting to connect to FAISS index at: " ++ filePath)) ;;
  io (set_indexPath (Some filePath)) ;;
  found <- io (existsSync filePath) ;;
  when_throw (negb found) (Error ("File not found: " ++ filePath)) ;;
  text <- io (readFileSync env filePath) ;;
  data <- lift (JSON_parse env text) ;;
  mems <- lift (get_field data "memories") ;;
  io (set_memories mems) ;;
  ret data.

(** Lines 48-63: name the temporary file, decode the index into it and
    verify that it exists and has content.  [||] does not evaluate
    [statSync] when the file is missing. *)
Definition stage_index (env : Env) (data : jsval) : M Frame unit :=
  set_tempPath (staging_path env) ;;
  io (console_log ("Creating temporary file at: " ++ staging_path env)) ;;
  payload <- lift (get_field data "index") ;;
  when_throw (negb (truthy payload))
             (Error "No index data found in the JSON file") ;;
  indexBuffer <- lift (Buffer_from_base64 env payload) ;;
  io (writeFileSync env (staging_path env) indexBuffer) ;;
  io (console_log "Successfully wrote index buffer to temporary file") ;;
  staged <- io (existsSync (staging_path env)) ;;
  invalid <- (if negb staged then ret true
              else size <- io (statSync_size (staging_path env)) ;;
                   ret (size =? 0)) ;;
  when_throw invalid (Error "Failed to create valid temporary index file").

(** Lines 65-81: open the index, persist the path, tell the host and the
    observers. *)
Definition open_index (env : Env) (filePath : string) : M Frame unit :=
  io (console_log "Attempting to read FAISS index from temporary file") ;;
  h <- io (Index_read_file env (staging_path env)) ;;
  io (set_faissIndex (Some h)) ;;
  io (console_log "Successfully connected to FAISS index") ;;
  io (globalState_update "faissDataPath" (Some filePath)) ;;
  io (setContext "faissViewConnected" true) ;;
  io fire.

(** The [try] block, lines 38-81. *)
Definition connect_try (env : Env) (filePath : string) : M Frame unit :=
  data <- read_bundle env filePath ;;
  stage_index env data ;;
  open_index env filePath.

(** The [catch] block, lines 82-102. *)
Definition connect_catch (error : exn) : M World unit :=
  console_error "Failed to connect to FAISS index:" error ;;
  showErrorMessage
    ("Failed to connect to FAISS index: " ++ exn_toString error) ;;
  globalState_update "faissDataPath" None ;;
  set_indexPath None ;;
  set_faissIndex None ;;
  set_memories (VArr []) ;;
  setContext "faissViewConnected" false ;;
  fire ;;
  throw error.

(** The [finally] block, lines 103-113. *)
Definition connect_finally (env : Env) : M Frame unit :=
  tp <- get_tempPath ;;
  match tp with
  | None => ret tt
  | Some p =>
      if negb (String.eqb p "") then
        present <- io (existsSync p) ;;
        if present then
          io (try_catch
                (unlinkSync env p ;;
                 console_log "Successfully cleaned up temporary file")
                (fun error =>
                   console_warn "Failed to clean up temporary file:" error))
        else ret tt
      else ret tt
  end.

Definition connect_frame (env : Env) (filePath : string) : M Frame unit :=
  try_finally
    (try_catch (connect_try env filePath)
               (fun error => io (connect_catch error)))
    (connect_finally env).

Definition connectToIndex (env : Env) (filePath : string) : M World unit :=
  fun w =>
    let '(r, f) := connect_frame env filePath (mkFrame w None) in
    (r, world f).

(** ** refresh *)

(** [refresh] starts [connectToIndex] without awaiting it, so a rejection
    of that promise reaches nobody.  Under the single stream of control the
    operations are written for, the started call runs to its end here. *)
Definition refresh (env : Env) : M World unit :=
  fun w =>
    match indexPath w with
    | Some p =>
        if negb (String.eqb p "") then
          try_catch (connectToIndex env p) (fun _ => ret tt) w
        else fire w
    | None => fire w
    end.

(** ** searchVectors *)

(** The object [searchVectors] resolves to. *)
Module Reply.
Record t : Type := mk {
  indices : list Z;
  distances : list Q;
  memories : list jsval
}.
End Reply.

Fixpoint mapM {S A B} (f : A -> M S B) (l : list A) : M S (list B) :=
  match l with
  | [] => ret []
  | a :: rest =>
      b <- f a ;;
      bs <- mapM f rest ;;
      ret (b :: bs)
  end.

(** [this.faissIndex.search(vector, k)] *)
Definition engine_search (env : Env) (h : Index) (vector : list Q) (k : Z)
  : M World SearchResult :=
  emit (EngineSearch h vector k) ;;
  lift (Index_search env h vector k).

(** [this.memories[idx]] *)
Definition memory_at (idx : Z) : M World jsval :=
  fun w => (get_index (memories w) idx, w).

Definition searchVectors (env : Env) (vector : list Q)
  : M World (option Reply.t) :=
  fun w =>
    match faissIndex w with
    | None => ret None w
    | Some h =>
        try_catch
          (results <- engine_search env h vector 5 ;;
           found <- mapM memory_at (indices results) ;;
           ret (Some (Reply.mk (indices results) (distances results) found)))
          (fun error =>
             console_error "Search failed:" error ;;
             showErrorMessage ("Search failed: " ++ exn_toString error) ;;
             ret None)
          w
    end.

(** The webview's [searchVectors] message (lines 714-724): the reply, when
    there is one, is posted back as a sequence of [{memory, distance}]. *)
Definition pair_results (r : Reply.t) : list (jsval * option Q) :=
  imap (fun i memory => (memory, Reply.distances r !! i))
       (Reply.memories r).

Definition on_searchVectors (env : Env) (vector : list Q) : M World unit :=
  results <- searchVectors env vector ;;
  match results with
  | Some r => emit (PostSearchResults (pair_results r))
  | None => ret tt
  end.

(** ** getAllMemories and disconnect *)

Definition getAllMemories (w : World) : jsval := memories w.

Definition disconnect (env : Env) : M World unit :=
  fun w =>
    match faissIndex w with
    | Some _ =>
        (set_faissIndex None ;;
         set_indexPath None ;;
         set_memories (VArr []) ;;
         globalState_update "faissDataPath" None ;;
         setContext "faissViewConnected" false ;;
         refresh env) w
    | None => ret tt w
    end.

(** The provider as its constructor leaves it. *)
Definition new_provider (store : gmap string string)
           (fs : gmap string (list Byte.byte)) : World :=
  mkWorld None None (VArr []) store fs [].

(** ** getMemoryById *)

(** [v === s] for a string [s]. *)
Definition strict_eq_string (v : jsval) (s : string) : bool :=
  match v with
  | VStr s' => String.eqb s' s
  | _ => false
  end.

(** [items.find((memory) => memory.id === id)]: the first element whose
    [id] is the string asked for, [undefined] when there is none; reading
    [id] off a [null] or [undefined] element throws.  ([id], like
    [memories] and [index], is no built-in property.) *)
Fixpoint find_by_id (id : string) (items : list jsval) : Res jsval :=
  match items with
  | [] => Ok VUndefined
  | memory :: rest =>
      match get_field memory "id" with
      | Throw e => Throw e
      | Ok v =>
          if strict_eq_string v id then Ok memory else find_by_id id rest
      end
  end.

(** Lines 206-208.  Only an array has a [find] method. *)
Definition getMemoryById (id : string) : M World jsval :=
  fun w =>
    (match memories w with
     | VArr items => find_by_id id items
     | VUndefined =>
         Throw (TypeError
                  "Cannot read properties of undefined (reading 'find')")
     | VNull =>
         Throw (TypeError "Cannot read properties of null (reading 'find')")
     | _ => Throw (TypeError "this.memories.find is not a function")
     end, w).

(** ** The connect command and the saved path *)

(** The [vscode-faiss-viewer.connect] command, lines 279-296.  What the
    user picks in the open dialog is [selection] (the [fsPath] of each
    chosen file, [None] when the dialog is dismissed); [inspect] is the
    console's rendering of that value. *)
Definition connect_command (env : Env)
           (inspect : option (list string) -> string)
           (selection : option (list string)) : M World unit :=
  console_log "Connect command triggered" ;;
  console_log ("Selected file path: " ++ inspect selection) ;;
  match selection with
  | Some (fsPath :: _) =>
      globalState_update "faissDataPath" (Some fsPath) ;;
      connectToIndex env fsPath
  | _ => ret tt
  end.

(** The end of [activate], lines 732-743: reconnect to the saved path.
    The rejection handler belongs to the reconnection, which runs to its
    end here. *)
Definition restore_saved_path (env : Env) : M World unit :=
  fun w =>
    match globalState w !! "faissDataPath" with
    | Some savedPath =>
        if negb (String.eqb savedPath "") then
          (console_log ("Found saved path: " ++ savedPath) ;;
           try_catch
             (connectToIndex env savedPath)
             (fun error =>
                console_error "Failed to connect to saved path:" error ;;
                showErrorMessage
                  ("Failed to connect to saved FAISS index: "
                   ++ exn_toString error))) w
        else ret tt w
    | None => ret tt w
    end.

(** ** Sequences of calls *)





(** ** The tree view *)

(** [vscode.Command] *)
Module Command.
Record t : Type := mk {
  command : string;
  title : string;
  arguments : list jsval
}.
End Command.

(** [vscode.TreeItemCollapsibleState] *)
Inductive TreeItemCollapsibleState : Type :=
| CollapsibleNone
| Collapsed
| Expanded.

(** [FaissItem], lines 232-243, with the two fields of [vscode.TreeItem]
    that [getTreeItem] assigns: the identifier of the theme icon and the
    tooltip. *)
Module FaissItem.
Record t : Type := mk {
  label : string;
  collapsibleState : TreeItemCollapsibleState;
  command : option Command.t;
  iconPath : option string;
  tooltip : option string
}.
End FaissItem.

(** [new FaissItem(label, collapsibleState, command)] *)
Definition new_FaissItem (label : string)
           (collapsibleState : TreeItemCollapsibleState)
           (command : option Command.t) : FaissItem.t :=
  FaissItem.mk label collapsibleState command None None.

Definition decorate (icon tip : string) (element : FaissItem.t)
  : FaissItem.t :=
  FaissItem.mk (FaissItem.label element) (FaissItem.collapsibleState element)
               (FaissItem.command element) (Some icon) (Some tip).

(** Lines 116-131. *)
Definition getTreeItem (element : FaissItem.t) : FaissItem.t :=
  if String.eqb (FaissItem.label element) "Refresh" then
    decorate "refresh" "Refresh the FAISS index" element
  else if String.eqb (FaissItem.label element) "View Vectors" then
    decorate "symbol-array" "View all vectors" element
  else if String.eqb (FaissItem.label element) "Disconnect" then
    decorate "close" "Disconnect from current FAISS index" element
  else if String.prefix "Connect to" (FaissItem.label element) then
    decorate "folder-opened" "Connect to a FAISS index file" element
  else element.

(** What the engine reports about an open index: [getDimension()] and
    [ntotal()] of src/src/types.ts, both integral. *)
Record IndexInfo : Type := mkIndexInfo {
  getDimension : Index -> Res Z;
  ntotal : Index -> Res Z
}.

(** Lines 133-179. *)
Definition getChildren (info : IndexInfo) (element : option FaissItem.t)
  : M World (list FaissItem.t) :=
  fun w =>
    match faissIndex w with
    | None =>
        ret [new_FaissItem "Connect to a FAISS index" CollapsibleNone
               (Some (Command.mk "vscode-faiss-viewer.connect"
                                 "Connect to FAISS Index" []))] w
    | Some h =>
        match element with
        | None =>
            try_catch
              (dimension <- lift (getDimension info h) ;;
               total <- lift (ntotal info h) ;;
               ret [new_FaissItem ("Dimension: " ++ pretty dimension)
                                  CollapsibleNone None;
                    new_FaissItem ("Total Vectors: " ++ pretty total)
                                  CollapsibleNone None;
                    new_FaissItem "View Vectors" CollapsibleNone
                      (Some (Command.mk "vscode-faiss-viewer.openVectorView"
                                        "Open Vector View" []))])
              (fun error =>
                 console_error "Error getting index information:" error ;;
                 ret [new_FaissItem "Error loading index information"
                                    CollapsibleNone None])
              w
        | Some _ => ret [] w
        end
    end.

(** ** The script of the vector view *)

(** The script that [openVectorView] puts into the page (lines 472-597)
    keeps four variables and reacts to the controls of the page.  The
    records it starts from are the ones serialized into the page when the
    view is opened.  A handler is given here by the variables it leaves,
    whether it then ends normally or [updateView] fails while rendering. *)
Module View.

(** The options of the [itemsPerPage] select. *)
Inductive PageSize : Type := Ten | Twenty | Fifty | Hundred.

Definition size (s : PageSize) : Z :=
  match s with
  | Ten => 10
  | Twenty => 20
  | Fifty => 50
  | Hundred => 100
  end.

Record t : Type := mk {
  currentPage : Z;
  itemsPerPage : PageSize;
  filteredMemories : list jsval;
  currentViewMode : string
}.

Definition initial (memories : list jsval) : t := mk 1 Ten memories "grid".

Definition set_page (page : Z) (st : t) : t :=
  mk page (itemsPerPage st) (filteredMemories st) (currentViewMode st).

(** [l.slice(start, end)] for integral arguments. *)
Definition slice {A} (l : list A) (start finish : Z) : list A :=
  let len := Z.of_nat (length l) in
  let k := if start <? 0 then Z.max (len + start) 0 else Z.min start len in
  let final :=
    if finish <? 0 then Z.max (len + finish) 0 else Z.min finish len in
  take (Z.to_nat (final - k)) (drop (Z.to_nat k) l).

(** [Math.ceil(filteredMemories.length / itemsPerPage)]: for an array
    length and one of the four sizes the rounding of the division never
    crosses an integer, so this is the ceiling of the exact quotient. *)
Definition totalPages (st : t) : Z :=
  (Z.of_nat (length (filteredMemories st)) + size (itemsPerPage st) - 1)
  / size (itemsPerPage st).

(** The first statements of [updateView], lines 480-483. *)
Definition startIndex (st : t) : Z :=
  (currentPage st - 1) * size (itemsPerPage st).

Definition endIndex (st : t) : Z := startIndex st + size (itemsPerPage st).

Definition pageMemories (st : t) : list jsval :=
  slice (filteredMemories st) (startIndex st) (endIndex st).

(** Its last statements, lines 504-506. *)
Definition prevDisabled (st : t) : bool := currentPage st =? 1.

Definition nextDisabled (st : t) : bool := currentPage st =? totalPages st.

Definition pageInfo (st : t) : string :=
  "Page " ++ pretty (currentPage st) ++ " of " ++ pretty (totalPages st).

(** [array.filter(keep)]: the elements are tested in order and the first
    test that throws ends the filtering. *)
Fixpoint filterM {A} (keep : A -> Res bool) (l : list A) : Res (list A) :=
  match l with
  | [] => Ok []
  | a :: rest =>
      match keep a with
      | Throw e => Throw e
      | Ok b =>
          match filterM keep rest with
          | Throw e => Throw e
          | Ok kept => Ok (if b then a :: kept else kept)
          end
      end
  end.

(** [m => !value || m.metadata.key === value], for the keys [role] and
    [threadId] (no built-in properties, like [metadata]). *)
Definition keep_by (key value : string) (m : jsval) : Res bool :=
  if String.eqb value "" then Ok true
  else
    match get_field m "metadata" with
    | Throw e => Throw e
    | Ok metadata =>
        match get_field metadata key with
        | Throw e => Throw e
        | Ok v => Ok (strict_eq_string v value)
        end
    end.

(** The handlers of the two filters, lines 516-532: an exception of the
    filter leaves the variables as they were. *)
Definition filter_change (memories : list jsval) (key value : string)
           (st : t) : t :=
  match filterM (keep_by key value) memories with
  | Ok kept => mk 1 (itemsPerPage st) kept (currentViewMode st)
  | Throw _ => st
  end.

(** Lines 534-538. *)
Definition viewMode_change (mode : string) (st : t) : t :=
  mk (currentPage st) (itemsPerPage st) (filteredMemories st) mode.

(** Lines 540-544. *)
Definition itemsPerPage_change (s : PageSize) (st : t) : t :=
  mk 1 s (filteredMemories st) (currentViewMode st).

(** Lines 546-551. *)
Definition prevPage_click (st : t) : t :=
  if 1 <? currentPage st then set_page (currentPage st - 1) st else st.

(** Lines 553-559. *)
Definition nextPage_click (st : t) : t :=
  if currentPage st <? totalPages st then set_page (currentPage st + 1) st
  else st.

(** [x.toLowerCase().includes(term)] for the value [x] of the expression
    spelled [expr]: only a string has the method. *)
Definition lower_includes (toLowerCase : string -> string)
           (includes : string -> string -> bool)
           (expr : string) (x : jsval) (term : string) : Res bool :=
  match x with
  | VStr s => Ok (includes (toLowerCase s) term)
  | VUndefined =>
      Throw (TypeError
               "Cannot read properties of undefined (reading 'toLowerCase')")
  | VNull =>
      Throw (TypeError
               "Cannot read properties of null (reading 'toLowerCase')")
  | _ => Throw (TypeError (expr ++ ".toLowerCase is not a function"))
  end.

(** The test of the search box, lines 563-567; [||] stops at the first
    operand that holds. *)
Definition keep_search (toLowerCase : string -> string)
           (includes : string -> string -> bool)
           (searchTerm : string) (m : jsval) : Res bool :=
  match get_field m "id" with
  | Throw e => Throw e
  | Ok id =>
      match lower_includes toLowerCase includes "m.id" id searchTerm with
      | Throw e => Throw e
      | Ok true => Ok true
      | Ok false =>
          match get_field m "metadata" with
          | Throw e => Throw e
          | Ok metadata =>
              match get_field metadata "role" with
              | Throw e => Throw e
              | Ok role =>
                  match lower_includes toLowerCase includes
                                       "m.metadata.role" role searchTerm with
                  | Throw e => Throw e
                  | Ok true => Ok true
                  | Ok false =>
                      match get_field metadata "threadId" with
                      | Throw e => Throw e
                      | Ok threadId =>
                          lower_includes toLowerCase includes
                                         "m.metadata.threadId" threadId
                                         searchTerm
                      end
                  end
              end
          end
      end
  end.

(** Lines 561-570; [value] is the text of the search box. *)
Definition search_input (toLowerCase : string -> string)
           (includes : string -> string -> bool)
           (memories : list jsval) (value : string) (st : t) : t :=
  match filterM (keep_search toLowerCase includes (toLowerCase value))
                memories with
  | Ok kept => mk 1 (itemsPerPage st) kept (currentViewMode st)
  | Throw _ => st
  end.

(** Lines 572-581; [page] is [parseInt] of the text of the page input,
    [None] when that is [NaN]. *)
Definition pageInput_change (page : option Z) (st : t) : t :=
  match page with
  | Some p =>
      if (1 <=? p) && (p <=? totalPages st) then set_page p st else st
  | None => st
  end.

(** Lines 583-594. *)
Definition pageInput_keypress (key : string) (page : option Z) (st : t)
  : t :=
  if String.eqb key "Enter" then pageInput_change page st else st.

(** What the user does on the page. *)
Inductive action : Type :=
| RoleFilter (value : string)
| ThreadFilter (value : string)
| ViewMode (mode : string)
| ItemsPerPage (s : PageSize)
| PrevPage
| NextPage
| SearchInput (value : string)
| PageInputChange (page : option Z)
| PageInputKeypress (key : string) (page : option Z).

Definition handle (toLowerCase : string -> string)
           (includes : string -> string -> bool)
           (memories : list jsval) (a : action) (st : t) : t :=
  match a with
  | RoleFilter value => filter_change memories "role" value st
  | ThreadFilter value => filter_change memories "threadId" value st
  | ViewMode mode => viewMode_change mode st
  | ItemsPerPage s => itemsPerPage_change s st
  | PrevPage => prevPage_click st
  | NextPage => nextPage_click st
  | SearchInput value => search_input toLowerCase includes memories value st
  | PageInputChange page => pageInput_change page st
  | PageInputKeypress key page => pageInput_keypress key page st
  end.

(** The variables after a sequence of actions on a freshly opened view. *)
Definition after (toLowerCase : string -> string)
           (includes : string -> string -> bool)
           (memories : list jsval) (actions : list action) : t :=
  fold_left (fun st a => handle toLowerCase includes memories a st)
            actions (initial memories).

End View.

(** * Vocabulary of the statements *)

(** The provider as the [catch] block of connectToIndex leaves it. *)
Definition failed (error : exn) (w : World) : World :=
  mkWorld None None (VArr []) (delete "faissDataPath" (globalState w))
          (files w)
          (Fire :: SetContext "faissViewConnected" false
             :: ShowErrorMessage
                  ("Failed to connect to FAISS index: " ++ exn_toString error)
             :: ConsoleError "Failed to connect to FAISS index:" error
             :: trace w).

(** The world in which the [finally] block starts. *)
Definition after_catch (r : Res unit) (w : World) : World :=
  match r with
  | Ok _ => w
  | Throw error => failed error w
  end.

(** The same collaborators, except for what deleting a file does. *)
Definition with_unlinkSync_error (del : string -> option exn) (env : Env)
  : Env :=
  mkEnv (Date_now env) (os_tmpdir env) (readFileSync_error env)
        (JSON_parse env) (Buffer_from_base64 env) (writeFileSync_outcome env)
        del (Index_read env) (Index_search env).

(** Whether a document is an object with a field of that name. *)
Definition has_field (key : string) (data : jsval) : bool :=
  match data with
  | VObj fields => bool_decide (is_Some (assoc key fields))
  | _ => false
  end.

(** The world once the engine has been asked for five neighbours. *)
Definition searched (h : Index) (vector : list Q) (w : World) : World :=
  mkWorld (faissIndex w) (indexPath w) (memories w) (globalState w) (files w)
          (EngineSearch h vector 5 :: trace w).

(** Whether an observable call is a search in the engine. *)
Definition is_engine_search (ev : event) : bool :=
  match ev with EngineSearch _ _ _ => true | _ => false end.

(** What the engine promises about [search(vector, k)]: parallel arrays,
    at most [k] neighbours, nearest first. *)
Definition engine_contract (res : SearchResult) (k : Z) : Prop :=
  length (indices res) = length (distances res) /\
  Z.of_nat (length (indices res)) <= k /\
  Sorted Qle (distances res).

(** The two ways a connect can end. *)
Definition connect_outcome (filePath : string) (r : Res unit) (w' : World)
  : Prop :=
  match r with
  | Ok _ =>
      is_Some (faissIndex w') /\
      indexPath w' = Some filePath /\
      globalState w' !! "faissDataPath" = Some filePath
  | Throw _ =>
      faissIndex w' = None /\
      indexPath w' = None /\
      memories w' = VArr [] /\
      globalState w' !! "faissDataPath" = None
  end.

(** The provider fields, the persisted store and the files are the same. *)
Definition same_connection (w w' : World) : Prop :=
  faissIndex w' = faissIndex w /\
  indexPath w' = indexPath w /\
  memories w' = memories w /\
  globalState w' = globalState w /\
  files w' = files w.

(** An element whose [id] can be read and is not the string [id]. *)
Definition other_id (id : string) (memory : jsval) : Prop :=
  exists v, get_field memory "id" = Ok v /\ v <> VStr id.

(** The page shown is a page that exists. *)
Definition on_a_page (st : View.t) : Prop :=
  1 <= View.currentPage st /\
  (View.currentPage st <= View.totalPages st \/ View.currentPage st = 1).

(** A record whose metadata holds the string [value] under [key]. *)
Definition has_value (key value : string) (m : jsval) : Prop :=
  exists metadata,
    get_field m "metadata" = Ok metadata /\
    get_field metadata key = Ok (VStr value).

(** * Sample bundles and collaborators *)

Definition record_a : jsval :=
  VObj [("id", VStr "a"); ("vector", VArr [VNum 1; VNum 0])].
Definition record_b : jsval :=
  VObj [("id", VStr "b"); ("vector", VArr [VNum 0; VNum 1])].
Definition record_c : jsval :=
  VObj [("id", VStr "c"); ("embedding", VArr [VNum 1; VNum 1])].
Definition record_d : jsval :=
  VObj [("id", VStr "d"); ("embedding", VArr [VNum 2; VNum 1])].
Definition record_e : jsval :=
  VObj [("id", VStr "e"); ("embedding", VArr [VNum 2; VNum 2])].
Definition record_f : jsval :=
  VObj [("id", VStr "f"); ("embedding", VArr [VNum 3; VNum 2])].

Definition sample_bundle : jsval :=
  VObj [("index", VStr "SXhGMgIAAAA=");
        ("memories", VArr [record_a; record_b; record_c])].
Definition six_bundle : jsval :=
  VObj [("index", VStr "SXhGMgYAAAA=");
        ("memories",
         VArr [record_a; record_b; record_c; record_d; record_e; record_f])].
Definition bundle_without_index : jsval :=
  VObj [("memories", VArr [record_a; record_b])].
Definition bundle_without_memories : jsval :=
  VObj [("index", VStr "SXhGMgIAAAA=")].

(** An engine that answers a search with the first [k] entries of
    [answer], and one on which every search fails. *)
Definition answering (answer : SearchResult)
  : Index -> list Q -> Z -> Res SearchResult :=
  fun _ _ k =>
    Ok (mkSearchResult (take (Z.to_nat k) (indices answer))
                       (take (Z.to_nat k) (distances answer))).

Definition engine_down : exn := mkExn "Error" "index is not trained".

Definition failing : Index -> list Q -> Z -> Res SearchResult :=
  fun _ _ _ => Throw engine_down.

(** Well-behaved collaborators: the file parses to [doc], every file
    operation succeeds and any non-empty staged file opens as index 1. *)
Definition sample_env (doc : jsval)
           (search : Index -> list Q -> Z -> Res SearchResult) : Env :=
  mkEnv 1700000000000 "/tmp"
        (fun _ => None)
        (fun _ => Ok doc)
        (fun _ => Ok [Byte.x49; Byte.x78; Byte.x46; Byte.x32])
        (fun _ buf => (None, Some buf))
        (fun _ => None)
        (fun _ content =>
           match content with
           | Some (_ :: _) => Ok 1%N
           | _ => Throw (Error "could not read index")
           end)
        search.

Definition sample_disk : gmap string (list Byte.byte) :=
  {[ "/data/bundle.json" := [Byte.x7b; Byte.x7d] ]}.

Definition fresh : World := new_provider ∅ sample_disk.

(** The provider after connecting to the sample bundle. *)
Definition connected (doc : jsval) : World :=
  (connectToIndex (sample_env doc failing) "/data/bundle.json" fresh).2.

Definition nearest_c : SearchResult := mkSearchResult [2] [1 # 10]%Q.
Definition beyond_records : SearchResult :=
  mkSearchResult [0; 7; -1] [0; 1 # 2; 3]%Q.
Definition six_rows : SearchResult :=
  mkSearchResult [0; 1; 2; 3; 4; 5] [0; 1; 2; 3; 4; 5]%Q.

(** A host on which deleting the staging file fails. *)
Definition EPERM : exn :=
  mkExn "Error" "EPERM: operation not permitted, unlink".

Definition stubborn_env : Env :=
  with_unlinkSync_error (fun _ => Some EPERM)
                        (sample_env sample_bundle (answering nearest_c)).

(** A provider whose host still remembers a bundle that is gone. *)
Definition remembering : World :=
  new_provider {[ "faissDataPath" := "/missing/file.json" ]} sample_disk.

(** Records that carry metadata. *)
Definition record_user : jsval :=
  VObj [("id", VStr "u1"); ("vector", VArr [VNum 1; VNum 0]);
        ("metadata", VObj [("role", VStr "user"); ("threadId", VStr "t1")])].
Definition record_assistant : jsval :=
  VObj [("id", VStr "u2"); ("vector", VArr [VNum 0; VNum 1]);
        ("metadata",
         VObj [("role", VStr "assistant"); ("threadId", VStr "t1")])].

(** What the sample engine reports about its index. *)
Definition sample_info : IndexInfo :=
  mkIndexInfo (fun _ => Ok 2) (fun _ => Ok 3).


(** The connected provider once its bundle file is gone. *)
Definition vanished : World := set_files ∅ (connected sample_bundle).

(** The entry the tree offers while there is no connection. *)
Definition connect_entry : FaissItem.t :=
  new_FaissItem "Connect to a FAISS index" CollapsibleNone
    (Some (Command.mk "vscode-faiss-viewer.connect"
                      "Connect to FAISS Index" [])).

(** * Properties *)

(** ** Running provider code symbolically *)

Lemma staging_path_nonempty env : String.eqb (staging_path env) "" = false.
Proof.
  unfold staging_path, path_join.
  destruct (os_tmpdir env) as [|c d]; reflexivity.
Qed.

Lemma is_Some_Some_true {A} (x : A) : bool_decide (is_Some (Some x)) = true.
Proof. apply bool_decide_eq_true_2. eauto. Qed.

Lemma is_Some_None_false {A} : bool_decide (is_Some (@None A)) = false.
Proof. apply bool_decide_eq_false_2. intros [x Hx]. discriminate. Qed.

Ltac unfold_monad :=
  unfold try_finally, try_catch, bind, io, when_throw, ret, throw, lift in *.

Ltac unfold_prims :=
  unfold get_tempPath, set_tempPath, existsSync, readFileSync, console_log,
    console_error, console_warn, showErrorMessage, setContext, fire, emit,
    set_indexPath, set_memories, set_faissIndex, globalState_update,
    writeFileSync, statSync_size, unlinkSync, Index_read_file, set_files in *.

Ltac use_eqs :=
  repeat match goal with
         | H : ?x = _ |- context [?x] =>
             lazymatch x with
             | context [match _ with _ => _ end] => fail
             | _ => tryif is_var x then fail else rewrite H
             end
         end.

Ltac reduce_once :=
  cbn beta iota zeta delta
    [world tempPath faissIndex indexPath memories globalState files trace
     fst snd negb truthy or_undefined];
  use_eqs;
  rewrite ?staging_path_nonempty, ?lookup_insert_eq, ?lookup_delete_eq,
    ?is_Some_Some_true, ?is_Some_None_false.

Ltac reduce := repeat (progress reduce_once).

Ltac destruct_scrutinee x :=
  lazymatch x with
  | negb ?b => destruct_scrutinee b
  | bool_decide (is_Some ?o) => destruct o eqn:?
  | _ => destruct x eqn:?
  end.

Ltac stuck_match :=
  match goal with
  | |- context [match ?x with _ => _ end] =>
      lazymatch x with
      | context [match _ with _ => _ end] => fail
      | _ => destruct_scrutinee x
      end
  end.

Ltac run := unfold_monad; unfold_prims; reduce; repeat (stuck_match; reduce).

(** ** What each block of connectToIndex touches *)

Lemma read_bundle_frame env filePath f :
  let '(r, f') := read_bundle env filePath f in
  tempPath f' = tempPath f /\
  files (world f') = files (world f) /\
  trace (world f) `suffix_of` trace (world f').
Proof.
  unfold read_bundle. run.
  all: repeat split; try reflexivity; repeat apply suffix_cons_r; reflexivity.
Qed.

Lemma stage_index_frame env data f :
  let '(r, f') := stage_index env data f in
  tempPath f' = Some (staging_path env) /\
  (files (world f') = files (world f) \/
   exists content,
     files (world f') = <[staging_path env := content]> (files (world f))) /\
  trace (world f) `suffix_of` trace (world f').
Proof.
  unfold stage_index. run.
  all: repeat split; eauto; repeat apply suffix_cons_r; reflexivity.
Qed.

Lemma open_index_frame env filePath f :
  let '(r, f') := open_index env filePath f in
  tempPath f' = tempPath f /\
  files (world f') = files (world f) /\
  trace (world f) `suffix_of` trace (world f').
Proof.
  unfold open_index. run.
  all: repeat split; try reflexivity; repeat apply suffix_cons_r; reflexivity.
Qed.

(** The [try] block creates or overwrites at most the staging file, and
    only after [tempPath] holds its name. *)
Lemma connect_try_frame env filePath w :
  let '(r, f') := connect_try env filePath (mkFrame w None) in
  ((tempPath f' = None /\ files (world f') = files w) \/
   (tempPath f' = Some (staging_path env) /\
    (files (world f') = files w \/
     exists content,
       files (world f') = <[staging_path env := content]> (files w)))) /\
  trace w `suffix_of` trace (world f').
Proof.
  unfold connect_try, bind.
  pose proof (read_bundle_frame env filePath (mkFrame w None)) as H1.
  destruct (read_bundle env filePath (mkFrame w None)) as [[data|e] f1];
    cbn in H1; destruct H1 as (Ht1 & Hf1 & Hs1); [|by auto].
  pose proof (stage_index_frame env data f1) as H2.
  destruct (stage_index env data f1) as [[[]|e] f2];
    destruct H2 as (Ht2 & Hf2 & Hs2); rewrite Hf1 in Hf2.
  - pose proof (open_index_frame env filePath f2) as H3.
    destruct (open_index env filePath f2) as [r f3].
    destruct H3 as (Ht3 & Hf3 & Hs3). rewrite Ht3, Hf3. split; [by auto|].
    by do 2 (etrans; [|eassumption]).
  - split; [by auto|]. by etrans.
Qed.

(** The [catch] block always ends by rethrowing the error it caught. *)
Lemma connect_catch_run error w :
  connect_catch error w = (Throw error, failed error w).
Proof. reflexivity. Qed.

(** The [finally] block never throws, creates no file, and touches nothing
    but the file named by [tempPath] and the console. *)
Lemma connect_finally_run env f :
  exists w',
    connect_finally env f = (Ok tt, mkFrame w' (tempPath f)) /\
    faissIndex w' = faissIndex (world f) /\
    indexPath w' = indexPath (world f) /\
    memories w' = memories (world f) /\
    globalState w' = globalState (world f) /\
    trace (world f) `suffix_of` trace w' /\
    (files w' = files (world f) \/
     exists p, tempPath f = Some p /\ files w' = delete p (files (world f))) /\
    (forall p, is_Some (files w' !! p) -> is_Some (files (world f) !! p)) /\
    (forall p,
        tempPath f = Some p -> String.eqb p "" = false ->
        is_Some (files w' !! p) ->
        exists e,
          unlinkSync_error env p = Some e /\
          trace w' =
            ConsoleWarn "Failed to clean up temporary file:" e
              :: trace (world f)) /\
    (forall p,
        tempPath f = Some p -> String.eqb p "" = false ->
        unlinkSync_error env p = None ->
        files w' = delete p (files (world f))).
Proof.
  destruct f as [w [p|]]; unfold connect_finally; run.
  all: eexists; split; [reflexivity|]; cbn [faissIndex indexPath memories
         globalState files trace].
  all: split_and!; try reflexivity.
  all: try (repeat apply suffix_cons_r; reflexivity).
  all: try (by left); try (right; eexists; by split).
  all: try (intros q Hq;
            first [exact Hq | apply lookup_delete_is_Some in Hq; tauto]).
  all: try (intros q [=]; fail).
  all: intros q [= <-] Hne; try (rewrite Hne in *; discriminate).
  all: intros Hq; try congruence; try reflexivity.
  all: try (rewrite ?lookup_delete_eq, ?Heqo in Hq; destruct Hq; discriminate).
  all: try (symmetry; by apply delete_id).
  all: eauto.
Qed.

Lemma connect_finally_facts env f w' :
  connect_finally env f = (Ok tt, mkFrame w' (tempPath f)) ->
  faissIndex w' = faissIndex (world f) /\
  indexPath w' = indexPath (world f) /\
  memories w' = memories (world f) /\
  globalState w' = globalState (world f) /\
  trace (world f) `suffix_of` trace w' /\
  (files w' = files (world f) \/
   exists p, tempPath f = Some p /\ files w' = delete p (files (world f))) /\
  (forall p, is_Some (files w' !! p) -> is_Some (files (world f) !! p)) /\
  (forall p,
      tempPath f = Some p -> String.eqb p "" = false ->
      is_Some (files w' !! p) ->
      exists e,
        unlinkSync_error env p = Some e /\
        trace w' =
          ConsoleWarn "Failed to clean up temporary file:" e
            :: trace (world f)) /\
  (forall p,
      tempPath f = Some p -> String.eqb p "" = false ->
      unlinkSync_error env p = None ->
      files w' = delete p (files (world f))).
Proof.
  intros Hrun. destruct (connect_finally_run env f) as (w'' & Hrun' & Hfacts).
  rewrite Hrun in Hrun'. by injection Hrun' as ->.
Qed.

(** connectToIndex, block by block: the outcome is the one of the [try]
    block, the [catch] block resets the provider after a failure, and the
    [finally] block ends normally. *)
Lemma connectToIndex_blocks env filePath w :
  let '(r, f) := connect_try env filePath (mkFrame w None) in
  exists w',
    connect_finally env (mkFrame (after_catch r (world f)) (tempPath f))
    = (Ok tt, mkFrame w' (tempPath f)) /\
    connectToIndex env filePath w = (r, w').
Proof.
  unfold connectToIndex, connect_frame, try_finally, try_catch.
  destruct (connect_try env filePath (mkFrame w None)) as [[[]|e] [w1 tp]].
  - destruct (connect_finally_run env (mkFrame w1 tp)) as (w' & Hrun & _).
    exists w'. cbn [after_catch world tempPath] in *. by rewrite Hrun.
  - unfold io at 1. rewrite connect_catch_run. cbn [after_catch world tempPath].
    destruct (connect_finally_run env (mkFrame (failed e w1) tp))
      as (w' & Hrun & _).
    exists w'. cbn [world tempPath] in *. by rewrite Hrun.
Qed.

Lemma connect_try_ignores_unlink del env filePath :
  connect_try (with_unlinkSync_error del env) filePath
  = connect_try env filePath.
Proof. reflexivity. Qed.

Lemma connectToIndex_outcome env filePath w :
  (connectToIndex env filePath w).1
  = (connect_try env filePath (mkFrame w None)).1.
Proof.
  pose proof (connectToIndex_blocks env filePath w) as H.
  destruct (connect_try env filePath (mkFrame w None)) as [r f].
  destruct H as (w' & _ & ->). reflexivity.
Qed.

(** ** The state a failed connect leaves *)

Lemma connectToIndex_failure env filePath w e w' :
  connectToIndex env filePath w = (Throw e, w') ->
  (connect_try env filePath (mkFrame w None)).1 = Throw e /\
  faissIndex w' = None /\
  indexPath w' = None /\
  memories w' = VArr [] /\
  globalState w' !! "faissDataPath" = None /\
  exists after before, trace w' = after ++ Fire :: before ++ trace w.
Proof.
  intros Hrun.
  pose proof (connectToIndex_blocks env filePath w) as Hblocks.
  pose proof (connect_try_frame env filePath w) as Hframe.
  destruct (connect_try env filePath (mkFrame w None)) as [r f].
  destruct Hblocks as (w'' & Hfin & Hrun'). rewrite Hrun in Hrun'.
  injection Hrun' as <- <-. destruct Hframe as [_ [before Hbefore]].
  apply (connect_finally_facts env (mkFrame _ _)) in Hfin.
  cbn [world tempPath after_catch] in Hfin.
  destruct Hfin as (Hi & Hp & Hm & Hg & [after Hafter] & _).
  rewrite Hi, Hp, Hm, Hg, Hafter.
  unfold failed; cbn [faissIndex indexPath memories globalState trace fst].
  rewrite Hbefore.
  split_and!; try reflexivity.
  - apply lookup_delete_eq.
  - exists after. eexists (_ :: _ :: _ :: before). reflexivity.
Qed.

(** ** Particular runs of the [try] block *)

Lemma get_field_absent data key :
  data <> VNull -> data <> VUndefined -> has_field key data = false ->
  get_field data key = Ok VUndefined.
Proof.
  intros Hnull Hundef Hno. destruct data; try done. cbn in *.
  destruct (assoc key fields); [|done].
  by rewrite is_Some_Some_true in Hno.
Qed.

Lemma get_field_defined data key :
  data <> VNull -> data <> VUndefined -> exists v, get_field data key = Ok v.
Proof. intros Hnull Hundef. destruct data; cbn; by eauto. Qed.

Lemma connect_try_missing_index env filePath w content data :
  files w !! filePath = Some content ->
  readFileSync_error env filePath = None ->
  JSON_parse env (string_of_list_byte content) = Ok data ->
  data <> VNull -> data <> VUndefined ->
  has_field "index" data = false ->
  (connect_try env filePath (mkFrame w None)).1
  = Throw (Error "No index data found in the JSON file").
Proof.
  intros Hfile Hread Hparse Hnull Hundef Hno.
  pose proof (get_field_absent _ _ Hnull Hundef Hno) as Hindex.
  destruct (get_field_defined data "memories" Hnull Hundef) as [mems Hmems].
  unfold connect_try, read_bundle, stage_index. run.
  reflexivity.
Qed.

Lemma connect_try_without_memories
      env filePath w content fields payload buf staged h :
  files w !! filePath = Some content ->
  readFileSync_error env filePath = None ->
  JSON_parse env (string_of_list_byte content) = Ok (VObj fields) ->
  assoc "memories" fields = None ->
  assoc "index" fields = Some payload ->
  truthy payload = true ->
  Buffer_from_base64 env payload = Ok buf ->
  writeFileSync_outcome env (staging_path env) buf = (None, Some staged) ->
  staged <> [] ->
  Index_read env (staging_path env) (Some staged) = Ok h ->
  exists f,
    connect_try env filePath (mkFrame w None) = (Ok tt, f) /\
    faissIndex (world f) = Some h /\
    indexPath (world f) = Some filePath /\
    memories (world f) = VUndefined /\
    globalState (world f) !! "faissDataPath" = Some filePath.
Proof.
  intros Hfile Hread Hparse Hmems Hindex Htruthy Hbuf Hwrite Hstaged Hopen.
  assert (Hsize : (Z.of_nat (length staged) =? 0) = false).
  { apply Z.eqb_neq. destruct staged; [done|]. cbn [length]. lia. }
  unfold connect_try, read_bundle, stage_index, open_index, get_field. run.
  eexists. split; [reflexivity|]. cbn. split_and!; try done.
  apply lookup_insert_eq.
Qed.

Lemma connectToIndex_success env filePath w f :
  connect_try env filePath (mkFrame w None) = (Ok tt, f) ->
  exists w',
    connectToIndex env filePath w = (Ok tt, w') /\
    faissIndex w' = faissIndex (world f) /\
    indexPath w' = indexPath (world f) /\
    memories w' = memories (world f) /\
    globalState w' = globalState (world f).
Proof.
  intros Htry.
  pose proof (connectToIndex_blocks env filePath w) as Hblocks.
  rewrite Htry in Hblocks. destruct Hblocks as (w' & Hfin & Hrun).
  apply (connect_finally_facts env (mkFrame _ _)) in Hfin.
  cbn [world tempPath after_catch] in Hfin.
  destruct Hfin as (Hi & Hp & Hm & Hg & _). by exists w'.
Qed.

(** ** Searching *)

Lemma mapM_memory_at w rs ps :
  memories w = VArr rs ->
  mapM memory_at ps w = (Ok (map (array_get rs) ps), w).
Proof.
  intros Hmem. induction ps as [|p ps IH]; [done|].
  cbn [mapM map]. unfold bind at 1. unfold memory_at at 1.
  rewrite Hmem. cbn [get_index]. unfold bind. by rewrite IH.
Qed.

(** Whatever [this.memories] holds, looking the positions up leaves the
    world alone and, unless it throws, finds one value for each. *)
Lemma mapM_memory_at_any w ps :
  exists r,
    mapM memory_at ps w = (r, w) /\
    forall found, r = Ok found -> length found = length ps.
Proof.
  induction ps as [|p ps (r & Hrun & Hlen)].
  - exists (Ok []). split; [done|]. by intros found [= <-].
  - cbn [mapM]. unfold bind at 1, memory_at at 1.
    destruct (get_index (memories w) p) as [m|e].
    + unfold bind. rewrite Hrun. destruct r as [found|e].
      * eexists. split; [reflexivity|]. intros ? [= <-]. cbn [length].
        by rewrite (Hlen found).
      * eexists. split; [reflexivity|]. by intros ? [=].
    + eexists. split; [reflexivity|]. by intros ? [=].
Qed.

Lemma searchVectors_run env vector w h rs res :
  faissIndex w = Some h ->
  memories w = VArr rs ->
  Index_search env h vector 5 = Ok res ->
  searchVectors env vector w
  = (Ok (Some (Reply.mk (indices res) (distances res)
                        (map (array_get rs) (indices res)))),
     searched h vector w).
Proof.
  intros Hh Hmem Hres. unfold searchVectors. rewrite Hh.
  unfold try_catch, bind at 1, engine_search, bind at 1, emit, lift.
  rewrite Hres. unfold bind.
  rewrite (mapM_memory_at _ rs) by done. reflexivity.
Qed.

Lemma pair_results_lookup r i :
  pair_results r !! i
  = (fun memory => (memory, Reply.distances r !! i)) <$> Reply.memories r !! i.
Proof. unfold pair_results. apply list_lookup_imap. Qed.

Lemma pair_results_length r :
  length (pair_results r) = length (Reply.memories r).
Proof. unfold pair_results. apply length_imap. Qed.

Lemma array_get_inside rs p :
  0 <= p < Z.of_nat (length rs) ->
  exists r, rs !! Z.to_nat p = Some r /\ array_get rs p = r.
Proof.
  intros [Hlo Hhi]. unfold array_get.
  destruct (Z.ltb_spec p 0) as [|_]; [lia|].
  destruct (lookup_lt_is_Some_2 rs (Z.to_nat p)) as [r Hr]; [lia|].
  exists r. by rewrite Hr.
Qed.

Lemma array_get_outside rs p :
  p < 0 \/ Z.of_nat (length rs) <= p -> array_get rs p = VUndefined.
Proof.
  intros Hout. unfold array_get.
  destruct (Z.ltb_spec p 0) as [|Hlo]; [done|].
  rewrite lookup_ge_None_2; [done|lia].
Qed.

Lemma pair_results_distances r :
  length (Reply.memories r) = length (Reply.distances r) ->
  map snd (pair_results r) = map Some (Reply.distances r).
Proof.
  intros Hlen. apply list_eq. intros i.
  change (map snd (pair_results r)) with (snd <$> pair_results r).
  change (map Some (Reply.distances r)) with (Some <$> Reply.distances r).
  rewrite !list_lookup_fmap, pair_results_lookup.
  destruct (Reply.memories r !! i) as [m|] eqn:Hm; cbn.
  - destruct (lookup_lt_is_Some_2 (Reply.distances r) i) as [d Hd].
    { apply lookup_lt_Some in Hm. lia. }
    by rewrite Hd.
  - apply lookup_ge_None in Hm.
    rewrite (lookup_ge_None_2 (Reply.distances r) i) by lia. done.
Qed.

(** * The claims *)

(** ** C1: the staging file never outlives the call *)

Example sample_connect :
  connectToIndex (sample_env sample_bundle (answering nearest_c))
                 "/data/bundle.json" fresh
  = (Ok tt,
     mkWorld (Some 1%N) (Some "/data/bundle.json")
             (VArr [record_a; record_b; record_c])
             {[ "faissDataPath" := "/data/bundle.json" ]}
             sample_disk
             [ConsoleLog "Successfully cleaned up temporary file"; Fire;
              SetContext "faissViewConnected" true;
              ConsoleLog "Successfully connected to FAISS index";
              ConsoleLog "Attempting to read FAISS index from temporary file";
              ConsoleLog "Successfully wrote index buffer to temporary file";
              ConsoleLog
                "Creating temporary file at: /tmp/temp_faiss_1700000000000.index";
              ConsoleLog
                "Attempting to connect to FAISS index at: /data/bundle.json"]).
Proof. vm_compute. reflexivity. Qed.

(** Where the host refuses to delete the staging file, the call still
    succeeds, the file stays, and the refusal is on the console. *)
Example stubborn_connect :
  (connectToIndex stubborn_env "/data/bundle.json" fresh).1 = Ok tt /\
  is_Some (files (connectToIndex stubborn_env "/data/bundle.json" fresh).2
             !! "/tmp/temp_faiss_1700000000000.index") /\
  head (trace (connectToIndex stubborn_env "/data/bundle.json" fresh).2)
  = Some (ConsoleWarn "Failed to clean up temporary file:" EPERM).
Proof. vm_compute. split_and!; eauto. Qed.

(** C1.  Whatever the collaborators do (file read, parse, decode, staging
    write, verification, engine open, each succeeding or failing),
    connectToIndex ends with the outcome of its [try] block, and that
    outcome is the same whether the deletion of the staging file fails or
    not.  A file that exists after the call and did not exist before it can
    only be the staging file in the case where its deletion failed, and
    then the last thing the call did was to log that failure.  When the
    deletion does not fail, the files after the call are those before it,
    without the staging file. *)
Theorem connectToIndex_releases_staging_file env filePath w :
  let r := (connectToIndex env filePath w).1 in
  let w' := (connectToIndex env filePath w).2 in
  r = (connect_try env filePath (mkFrame w None)).1 /\
  (forall del,
      (connectToIndex (with_unlinkSync_error del env) filePath w).1 = r) /\
  (forall p,
      files w !! p = None -> is_Some (files w' !! p) ->
      p = staging_path env /\
      exists e rest,
        unlinkSync_error env p = Some e /\
        trace w' =
          ConsoleWarn "Failed to clean up temporary file:" e :: rest) /\
  (unlinkSync_error env (staging_path env) = None ->
   files w' = files w \/ files w' = delete (staging_path env) (files w)).
Proof.
  cbv zeta. split; [apply connectToIndex_outcome|]. split.
  { intros del. rewrite !connectToIndex_outcome.
    by rewrite connect_try_ignores_unlink. }
  pose proof (connectToIndex_blocks env filePath w) as Hblocks.
  pose proof (connect_try_frame env filePath w) as Hframe.
  destruct (connect_try env filePath (mkFrame w None)) as [r f].
  destruct Hblocks as (w' & Hfin & ->). cbn [fst snd].
  destruct Hframe as [Hfiles _].
  apply (connect_finally_facts env (mkFrame _ _)) in Hfin.
  cbn [world tempPath] in Hfin.
  destruct Hfin as (_ & _ & _ & _ & _ & Hdel & Hnew & Hkept & Hgone).
  assert (Hsame : files (after_catch r (world f)) = files (world f))
    by (by destruct r).
  rewrite Hsame in *. clear Hsame.
  pose proof (staging_path_nonempty env) as Hne.
  destruct Hfiles as [[Htp Hfs]|[Htp Hfs]]; rewrite Htp in *.
  - assert (files w' = files w) as ->
        by (destruct Hdel as [->|(p & [=] & _)]; done).
    split; [|by auto].
    intros p Hp Hp'. rewrite Hp in Hp'. by destruct Hp'.
  - split.
    + intros p Hp Hp'.
      assert (p = staging_path env) as ->.
      { destruct (decide (p = staging_path env)) as [|Hp'']; [done|].
        apply Hnew in Hp'. exfalso.
        destruct Hfs as [Hfs|[c Hfs]]; rewrite Hfs in Hp'.
        - rewrite Hp in Hp'. by destruct Hp'.
        - rewrite lookup_insert_ne, Hp in Hp' by done. by destruct Hp'. }
      split; [done|].
      destruct (Hkept _ eq_refl Hne Hp') as (e & He & Htr). eauto.
    + intros Hok. rewrite (Hgone _ eq_refl Hne Hok).
      destruct Hfs as [->|[c ->]]; [by right|].
      right. apply delete_insert_eq.
Qed.

(** ** C2: a bundle without index *)

(** C2.  When the bundle file exists, can be read and parses to a document
    other than [null] that has no [index] field, connectToIndex fails with
    the error "No index data found in the JSON file" and leaves the
    provider without engine handle (so not connected), without path,
    without records and with the persisted path cleared. *)
Theorem connectToIndex_missing_index env filePath w content data :
  files w !! filePath = Some content ->
  readFileSync_error env filePath = None ->
  JSON_parse env (string_of_list_byte content) = Ok data ->
  data <> VNull -> data <> VUndefined ->
  has_field "index" data = false ->
  exists w',
    connectToIndex env filePath w
    = (Throw (Error "No index data found in the JSON file"), w') /\
    faissIndex w' = None /\
    indexPath w' = None /\
    memories w' = VArr [] /\
    globalState w' !! "faissDataPath" = None.
Proof.
  intros Hfile Hread Hparse Hnull Hundef Hno.
  pose proof (connectToIndex_outcome env filePath w) as Hout.
  rewrite (connect_try_missing_index env filePath w content data) in Hout
    by done.
  destruct (connectToIndex env filePath w) as [r w'] eqn:Hrun.
  cbn [fst] in Hout. subst r. exists w'.
  destruct (connectToIndex_failure _ _ _ _ _ Hrun)
    as (_ & Hi & Hp & Hm & Hg & _).
  done.
Qed.

Lemma connectToIndex_missing_index_witness :
  exists w',
    connectToIndex (sample_env bundle_without_index failing)
                   "/data/bundle.json" fresh
    = (Throw (Error "No index data found in the JSON file"), w') /\
    faissIndex w' = None /\
    indexPath w' = None /\
    memories w' = VArr [] /\
    globalState w' !! "faissDataPath" = None.
Proof.
  apply (connectToIndex_missing_index
           (sample_env bundle_without_index failing) "/data/bundle.json"
           fresh [Byte.x7b; Byte.x7d] bundle_without_index);
    [reflexivity | reflexivity | reflexivity | discriminate | discriminate
    | reflexivity].
Defined.

(** A document that is [null] has no [index] either, but there the failure
    is the [TypeError] of reading [data.memories]. *)
Example null_document :
  (connectToIndex (sample_env VNull failing) "/data/bundle.json" fresh).1
  = Throw (TypeError "Cannot read properties of null (reading 'memories')").
Proof. vm_compute. reflexivity. Qed.

(** ** C3: the state after a failed connect *)

(** C3.  When any step of the [try] block of connectToIndex fails with an
    error [e], the call itself fails with that same [e], and afterwards
    the retained records are the empty array, the retained path and the
    engine handle are null, the persisted "faissDataPath" is cleared, and
    a change notification was fired during the call. *)
Theorem connectToIndex_failure_resets env filePath w e :
  (connect_try env filePath (mkFrame w None)).1 = Throw e ->
  exists w',
    connectToIndex env filePath w = (Throw e, w') /\
    memories w' = VArr [] /\
    indexPath w' = None /\
    faissIndex w' = None /\
    globalState w' !! "faissDataPath" = None /\
    exists after before, trace w' = after ++ Fire :: before ++ trace w.
Proof.
  intros Hfail.
  pose proof (connectToIndex_outcome env filePath w) as Hout.
  rewrite Hfail in Hout.
  destruct (connectToIndex env filePath w) as [r w'] eqn:Hrun.
  cbn [fst] in Hout. subst r. exists w'.
  destruct (connectToIndex_failure _ _ _ _ _ Hrun)
    as (_ & Hi & Hp & Hm & Hg & Htrace).
  done.
Qed.

Lemma connectToIndex_failure_resets_witness :
  exists w',
    connectToIndex (sample_env sample_bundle failing) "/missing/file.json"
                   remembering
    = (Throw (Error "File not found: /missing/file.json"), w') /\
    memories w' = VArr [] /\
    indexPath w' = None /\
    faissIndex w' = None /\
    globalState w' !! "faissDataPath" = None /\
    exists after before,
      trace w' = after ++ Fire :: before ++ trace remembering.
Proof.
  apply (connectToIndex_failure_resets
           (sample_env sample_bundle failing) "/missing/file.json"
           remembering (Error "File not found: /missing/file.json")).
  vm_compute. reflexivity.
Defined.

(** ** C4: results are joined to records by position *)

(** C4.  In a connected state whose records are the array [rs], when the
    engine answers a search with positions [ps] and distances [ds] of equal
    length and every position is a valid index into [rs], the results
    posted back have the length of [ps] and their i-th element pairs
    [rs[ps[i]]] with [ds[i]]: the engine's order is kept. *)
Theorem search_results_pair_by_position env vector w h rs ps ds :
  faissIndex w = Some h ->
  memories w = VArr rs ->
  Index_search env h vector 5 = Ok (mkSearchResult ps ds) ->
  length ps = length ds ->
  Forall (fun p => 0 <= p < Z.of_nat (length rs)) ps ->
  exists pairs w',
    on_searchVectors env vector w = (Ok tt, w') /\
    trace w' = PostSearchResults pairs :: EngineSearch h vector 5 :: trace w /\
    length pairs = length ps /\
    forall i, (i < length ps)%nat ->
      exists p d r,
        ps !! i = Some p /\ ds !! i = Some d /\
        rs !! Z.to_nat p = Some r /\
        pairs !! i = Some (r, Some d).
Proof.
  intros Hh Hmem Hres Hlen Hvalid.
  unfold on_searchVectors, bind.
  rewrite (searchVectors_run env vector w h rs _ Hh Hmem Hres).
  cbn [indices distances]. eexists _, _. split; [reflexivity|].
  cbn [trace searched]. split; [reflexivity|].
  rewrite pair_results_length. cbn [Reply.memories]. rewrite length_map.
  split; [done|]. intros i Hi.
  destruct (lookup_lt_is_Some_2 ps i Hi) as [p Hp].
  destruct (lookup_lt_is_Some_2 ds i) as [d Hd]; [lia|].
  rewrite Forall_lookup in Hvalid.
  destruct (array_get_inside rs p (Hvalid _ _ Hp)) as (r & Hr & Hget).
  exists p, d, r. split_and!; try done.
  rewrite pair_results_lookup. cbn [Reply.memories Reply.distances].
  by rewrite list_lookup_fmap, Hp, Hd; cbn; rewrite Hget.
Qed.

Lemma search_results_pair_by_position_witness :
  exists pairs w',
    on_searchVectors (sample_env sample_bundle (answering nearest_c))
                     [1; 0]%Q (connected sample_bundle)
    = (Ok tt, w') /\
    trace w'
    = PostSearchResults pairs :: EngineSearch 1%N [1; 0]%Q 5
        :: trace (connected sample_bundle) /\
    length pairs = length [2] /\
    forall i, (i < length [2])%nat ->
      exists p d r,
        [2] !! i = Some p /\ [1 # 10]%Q !! i = Some d /\
        [record_a; record_b; record_c] !! Z.to_nat p = Some r /\
        pairs !! i = Some (r, Some d).
Proof.
  apply (search_results_pair_by_position
           (sample_env sample_bundle (answering nearest_c)) [1; 0]%Q
           (connected sample_bundle) 1%N
           [record_a; record_b; record_c] [2] [1 # 10]%Q);
    [reflexivity | reflexivity | reflexivity | reflexivity |].
  repeat constructor; cbn; lia.
Defined.

(** The scenario of the specification: position 2 at distance 0.1 becomes
    the third record at distance 0.1. *)
Example positional_invariant :
  on_searchVectors (sample_env sample_bundle (answering nearest_c))
                   [1; 0]%Q (connected sample_bundle)
  = (Ok tt,
     (emit (PostSearchResults [(record_c, Some (1 # 10)%Q)])
           (searched 1%N [1; 0]%Q (connected sample_bundle))).2).
Proof. vm_compute. reflexivity. Qed.

(** ** C5: positions outside the records *)

(** With records a, b, c and engine positions 0, 7 and -1, the search
    ends normally, reports nothing, and posts the record a followed by two
    absent records: nothing fails with a record/vector mismatch. *)
Lemma search_out_of_bounds_raises_nothing :
  let env := sample_env sample_bundle (answering beyond_records) in
  let w := connected sample_bundle in
  searchVectors env [1; 0]%Q w
  = (Ok (Some (Reply.mk [0; 7; -1] [0; 1 # 2; 3]%Q
                        [record_a; VUndefined; VUndefined])),
     searched 1%N [1; 0]%Q w) /\
  on_searchVectors env [1; 0]%Q w
  = (Ok tt,
     (emit (PostSearchResults
              [(record_a, Some 0%Q); (VUndefined, Some (1 # 2)%Q);
               (VUndefined, Some 3%Q)])
           (searched 1%N [1; 0]%Q w)).2).
Proof. cbv zeta. split; vm_compute; reflexivity. Qed.

(** C5, amended.  In a connected state whose records are the array [rs],
    when the engine's answer holds at place [i] a position outside the
    bounds of [rs], the search does not fail and reports no error: it
    returns normally, and the i-th composed element is the absent record
    [undefined] paired with the engine's i-th distance. *)
Theorem search_out_of_bounds_is_undefined env vector w h rs res i p :
  faissIndex w = Some h ->
  memories w = VArr rs ->
  Index_search env h vector 5 = Ok res ->
  indices res !! i = Some p ->
  p < 0 \/ Z.of_nat (length rs) <= p ->
  exists reply w',
    searchVectors env vector w = (Ok (Some reply), w') /\
    trace w' = EngineSearch h vector 5 :: trace w /\
    Reply.memories reply !! i = Some VUndefined /\
    pair_results reply !! i = Some (VUndefined, distances res !! i).
Proof.
  intros Hh Hmem Hres Hp Hout.
  rewrite (searchVectors_run env vector w h rs res Hh Hmem Hres).
  eexists _, _. split; [reflexivity|]. split; [reflexivity|].
  assert (map (array_get rs) (indices res) !! i = Some VUndefined) as Hi.
  { change (map (array_get rs) (indices res))
      with (array_get rs <$> indices res).
    by rewrite list_lookup_fmap, Hp; cbn; rewrite array_get_outside. }
  split; [done|].
  rewrite pair_results_lookup. cbn [Reply.memories Reply.distances].
  by rewrite Hi.
Qed.

Lemma search_out_of_bounds_is_undefined_witness :
  exists reply w',
    searchVectors (sample_env sample_bundle (answering beyond_records))
                  [1; 0]%Q (connected sample_bundle)
    = (Ok (Some reply), w') /\
    trace w' = EngineSearch 1%N [1; 0]%Q 5 :: trace (connected sample_bundle) /\
    Reply.memories reply !! 1%nat = Some VUndefined /\
    pair_results reply !! 1%nat
    = Some (VUndefined, distances beyond_records !! 1%nat).
Proof.
  apply (search_out_of_bounds_is_undefined
           (sample_env sample_bundle (answering beyond_records)) [1; 0]%Q
           (connected sample_bundle) 1%N
           [record_a; record_b; record_c] beyond_records 1%nat 7);
    [reflexivity | reflexivity | reflexivity | reflexivity | right; cbn; lia].
Defined.

(** ** C6: how many neighbours are requested *)

(** A caller that wants at most 2 neighbours has no way to say so: on an
    index of six rows the engine is asked for 5 and 5 pairs come back. *)
Lemma searchVectors_ignores_requested_count :
  let k := 2 in
  let run :=
    searchVectors (sample_env six_bundle (answering six_rows))
                  [1; 0]%Q (connected six_bundle) in
  head (trace run.2) = Some (EngineSearch 1%N [1; 0]%Q 5) /\
  5 <> k /\
  (exists reply,
      run.1 = Ok (Some reply) /\
      Z.of_nat (length (pair_results reply)) = 5) /\
  ~ (5 <= k).
Proof.
  cbv zeta. split; [vm_compute; reflexivity|]. split; [lia|].
  split; [|lia]. eexists. split; [vm_compute; reflexivity|]. reflexivity.
Qed.

(** C6, amended.  searchVectors takes a query vector and no result-count
    bound.  In every connected state it asks the engine once, for 5
    nearest neighbours; when the engine keeps its contract for [k = 5]
    (parallel arrays, at most 5 entries, ascending distances), a reply
    holds at most 5 (record, distance) pairs, whose distances are the
    engine's, in the engine's ascending order. *)
Theorem searchVectors_requests_five env vector w h :
  faissIndex w = Some h ->
  (forall res, Index_search env h vector 5 = Ok res -> engine_contract res 5) ->
  exists r w' later,
    searchVectors env vector w = (Ok r, w') /\
    trace w' = later ++ EngineSearch h vector 5 :: trace w /\
    forallb (fun ev => negb (is_engine_search ev)) later = true /\
    forall reply,
      r = Some reply ->
      exists res,
        Index_search env h vector 5 = Ok res /\
        Z.of_nat (length (pair_results reply)) <= 5 /\
        map snd (pair_results reply) = map Some (distances res) /\
        Sorted Qle (distances res).
Proof.
  intros Hh Hcontract. unfold searchVectors. rewrite Hh.
  unfold try_catch, bind at 1, engine_search, bind at 1, emit, lift.
  destruct (Index_search env h vector 5) as [res|e] eqn:Hres.
  - destruct (Hcontract res eq_refl) as (Hlen & Hk & Hsorted).
    unfold bind at 1.
    match goal with
    | |- context [mapM memory_at ?ps ?w0] =>
        destruct (mapM_memory_at_any w0 ps) as (r & Hrun & Hfound);
        rewrite Hrun
    end.
    destruct r as [found|e].
    + specialize (Hfound found eq_refl).
      eexists _, _, []. split; [reflexivity|]. split; [reflexivity|].
      split; [reflexivity|]. intros reply [= <-]. exists res.
      rewrite pair_results_length. cbn [Reply.memories]. rewrite Hfound.
      split_and!; try done.
      apply pair_results_distances. cbn [Reply.memories Reply.distances].
      by rewrite Hfound.
    + eexists _, _, [_; _]. split; [reflexivity|]. split; [reflexivity|].
      split; [reflexivity|]. by intros reply [=].
  - eexists _, _, [_; _]. split; [reflexivity|]. split; [reflexivity|].
    split; [reflexivity|]. by intros reply [=].
Qed.

Lemma searchVectors_requests_five_witness :
  exists r w' later,
    searchVectors (sample_env six_bundle (answering six_rows))
                  [1; 0]%Q (connected six_bundle)
    = (Ok r, w') /\
    trace w' = later ++ EngineSearch 1%N [1; 0]%Q 5
                 :: trace (connected six_bundle) /\
    forallb (fun ev => negb (is_engine_search ev)) later = true /\
    forall reply,
      r = Some reply ->
      exists res,
        answering six_rows 1%N [1; 0]%Q 5 = Ok res /\
        Z.of_nat (length (pair_results reply)) <= 5 /\
        map snd (pair_results reply) = map Some (distances res) /\
        Sorted Qle (distances res).
Proof.
  apply (searchVectors_requests_five
           (sample_env six_bundle (answering six_rows)) [1; 0]%Q
           (connected six_bundle) 1%N); [reflexivity|].
  intros res [= <-]. split; [reflexivity|]. split; [cbn; lia|].
  repeat constructor; unfold Qle; cbn; lia.
Defined.

(** ** C7: searching while not connected *)

(** C7.  Without engine handle, searchVectors returns [null] without
    raising an error, and nothing in the world changes. *)
Theorem searchVectors_not_connected env vector w :
  faissIndex w = None ->
  searchVectors env vector w = (Ok None, w).
Proof. intros Hnone. unfold searchVectors. by rewrite Hnone. Qed.

Lemma searchVectors_not_connected_witness :
  searchVectors (sample_env sample_bundle (answering nearest_c)) [1; 0]%Q fresh
  = (Ok None, fresh).
Proof.
  apply (searchVectors_not_connected
           (sample_env sample_bundle (answering nearest_c)) [1; 0]%Q fresh).
  reflexivity.
Defined.

(** ** C8: an engine failure during a search *)

(** C8.  In a connected state, when the engine raises [e] during the
    search, searchVectors catches it, shows "Search failed: e" to the user
    and returns [null]; the engine handle, the records, the path, the
    persisted store and the files are what they were before. *)
Theorem searchVectors_engine_error env vector w h e :
  faissIndex w = Some h ->
  Index_search env h vector 5 = Throw e ->
  exists w',
    searchVectors env vector w = (Ok None, w') /\
    faissIndex w' = faissIndex w /\
    indexPath w' = indexPath w /\
    memories w' = memories w /\
    globalState w' = globalState w /\
    files w' = files w /\
    trace w' =
      ShowErrorMessage ("Search failed: " ++ exn_toString e)
        :: ConsoleError "Search failed:" e
        :: EngineSearch h vector 5 :: trace w.
Proof.
  intros Hh Hres. unfold searchVectors. rewrite Hh.
  unfold try_catch, bind at 1, engine_search, bind at 1, emit, lift.
  rewrite Hres. eexists. split; [reflexivity|]. by cbn.
Qed.

Lemma searchVectors_engine_error_witness :
  exists w',
    searchVectors (sample_env sample_bundle failing) [1; 0]%Q
                  (connected sample_bundle)
    = (Ok None, w') /\
    faissIndex w' = faissIndex (connected sample_bundle) /\
    indexPath w' = indexPath (connected sample_bundle) /\
    memories w' = memories (connected sample_bundle) /\
    globalState w' = globalState (connected sample_bundle) /\
    files w' = files (connected sample_bundle) /\
    trace w' =
      ShowErrorMessage ("Search failed: " ++ exn_toString engine_down)
        :: ConsoleError "Search failed:" engine_down
        :: EngineSearch 1%N [1; 0]%Q 5 :: trace (connected sample_bundle).
Proof.
  apply (searchVectors_engine_error
           (sample_env sample_bundle failing) [1; 0]%Q
           (connected sample_bundle) 1%N engine_down);
    reflexivity.
Defined.

(** ** C9: disconnect *)

(** After a failed connect the provider holds no engine handle;
    disconnect then does nothing at all, so observers are not notified. *)
Lemma disconnect_after_failed_connect_is_silent :
  let env := sample_env sample_bundle failing in
  let w_error := (connectToIndex env "/missing/file.json" remembering).2 in
  (connectToIndex env "/missing/file.json" remembering).1
  = Throw (Error "File not found: /missing/file.json") /\
  faissIndex w_error = None /\
  disconnect env w_error = (Ok tt, w_error) /\
  trace (disconnect env w_error).2 = trace w_error.
Proof. vm_compute. split_and!; reflexivity. Qed.

(** C9, amended.  disconnect never fails and always ends without engine
    handle.  From a state with an engine handle (Connected) it drops the
    handle, clears the records and the path, clears the persisted
    "faissDataPath" and notifies observers once.  From a state without
    engine handle (Disconnected, or Error after a failed connect) it
    changes nothing and notifies nobody. *)
Theorem disconnect_transition env w :
  exists w',
    disconnect env w = (Ok tt, w') /\
    faissIndex w' = None /\
    match faissIndex w with
    | Some _ =>
        indexPath w' = None /\
        memories w' = VArr [] /\
        globalState w' = delete "faissDataPath" (globalState w) /\
        files w' = files w /\
        trace w' = Fire :: SetContext "faissViewConnected" false :: trace w
    | None => w' = w
    end.
Proof.
  unfold disconnect. destruct (faissIndex w) as [h|] eqn:Hh.
  - eexists. split; [reflexivity|]. by cbn.
  - exists w. by rewrite Hh.
Qed.

(** ** C10: a bundle without memories *)

(** C10.  When the bundle document is an object with a truthy (for a
    string: non-empty) [index] and no [memories] field, and decoding,
    staging, verification and the engine's open succeed, connectToIndex
    succeeds, and afterwards getAllMemories answers [undefined] rather than
    a sequence of records. *)
Theorem connectToIndex_without_memories
        env filePath w content fields payload buf staged h :
  files w !! filePath = Some content ->
  readFileSync_error env filePath = None ->
  JSON_parse env (string_of_list_byte content) = Ok (VObj fields) ->
  assoc "memories" fields = None ->
  assoc "index" fields = Some payload ->
  truthy payload = true ->
  Buffer_from_base64 env payload = Ok buf ->
  writeFileSync_outcome env (staging_path env) buf = (None, Some staged) ->
  staged <> [] ->
  Index_read env (staging_path env) (Some staged) = Ok h ->
  exists w',
    connectToIndex env filePath w = (Ok tt, w') /\
    faissIndex w' = Some h /\
    getAllMemories w' = VUndefined.
Proof.
  intros Hfile Hread Hparse Hmems Hindex Htruthy Hbuf Hwrite Hstaged Hopen.
  destruct (connect_try_without_memories
              env filePath w content fields payload buf staged h)
    as (f & Htry & Hi & _ & Hm & _); try done.
  destruct (connectToIndex_success env filePath w f Htry)
    as (w' & Hrun & Hi' & _ & Hm' & _).
  exists w'. unfold getAllMemories. by rewrite Hi', Hm'.
Qed.

Lemma connectToIndex_without_memories_witness :
  exists w',
    connectToIndex (sample_env bundle_without_memories failing)
                   "/data/bundle.json" fresh
    = (Ok tt, w') /\
    faissIndex w' = Some 1%N /\
    getAllMemories w' = VUndefined.
Proof.
  apply (connectToIndex_without_memories
           (sample_env bundle_without_memories failing) "/data/bundle.json"
           fresh [Byte.x7b; Byte.x7d]
           [("index", VStr "SXhGMgIAAAA=")] (VStr "SXhGMgIAAAA=")
           [Byte.x49; Byte.x78; Byte.x46; Byte.x32]
           [Byte.x49; Byte.x78; Byte.x46; Byte.x32] 1%N);
    [reflexivity | reflexivity | reflexivity | reflexivity | reflexivity
    | reflexivity | reflexivity | reflexivity | discriminate | reflexivity].
Defined.

(** * More of the provider: lemmas *)

(** ** What a connect establishes *)

Lemma read_bundle_path env filePath f :
  let '(r, f') := read_bundle env filePath f in
  match r with
  | Ok _ => indexPath (world f') = Some filePath
  | Throw _ => True
  end.
Proof. unfold read_bundle. run. all: done. Qed.

Lemma stage_index_path env data f :
  let '(r, f') := stage_index env data f in
  indexPath (world f') = indexPath (world f).
Proof. unfold stage_index. run. all: done. Qed.

Lemma open_index_connects env filePath f :
  let '(r, f') := open_index env filePath f in
  match r with
  | Ok _ =>
      is_Some (faissIndex (world f')) /\
      indexPath (world f') = indexPath (world f) /\
      globalState (world f') !! "faissDataPath" = Some filePath
  | Throw _ => True
  end.
Proof. unfold open_index. run. all: by eauto. Qed.

Lemma connect_try_connects env filePath w f :
  connect_try env filePath (mkFrame w None) = (Ok tt, f) ->
  is_Some (faissIndex (world f)) /\
  indexPath (world f) = Some filePath /\
  globalState (world f) !! "faissDataPath" = Some filePath.
Proof.
  unfold connect_try, bind.
  pose proof (read_bundle_path env filePath (mkFrame w None)) as H1.
  destruct (read_bundle env filePath (mkFrame w None)) as [[data|e] f1];
    [|done].
  pose proof (stage_index_path env data f1) as H2.
  destruct (stage_index env data f1) as [[[]|e] f2]; [|done].
  pose proof (open_index_connects env filePath f2) as H3.
  destruct (open_index env filePath f2) as [[[]|e] f3]; [|done].
  intros [= <-]. destruct H3 as (Hi & Hp & Hg).
  split_and!; try done. by rewrite Hp, H2.
Qed.

Lemma connectToIndex_outcomes env filePath w :
  connect_outcome filePath (connectToIndex env filePath w).1
                  (connectToIndex env filePath w).2.
Proof.
  destruct (connectToIndex env filePath w) as [[[]|e] w'] eqn:Hrun.
  - pose proof (connectToIndex_outcome env filePath w) as Hout.
    rewrite Hrun in Hout. cbn [fst] in Hout.
    destruct (connect_try env filePath (mkFrame w None)) as [r f] eqn:Htry.
    cbn [fst] in Hout. subst r.
    destruct (connect_try_connects env filePath w f Htry) as (Hi & Hp & Hg).
    destruct (connectToIndex_success env filePath w f Htry)
      as (w'' & Hrun' & Hi' & Hp' & _ & Hg').
    rewrite Hrun in Hrun'. injection Hrun' as <-.
    cbn. by rewrite Hi', Hp', Hg'.
  - destruct (connectToIndex_failure _ _ _ _ _ Hrun)
      as (_ & Hi & Hp & Hm & Hg & _).
    done.
Qed.

(** ** Searching leaves the connection alone *)



(** ** The states a provider goes through *)









(** ** Looking a record up by its id *)

Lemma strict_eq_string_true v id : strict_eq_string v id = true <-> v = VStr id.
Proof.
  destruct v; cbn; try (split; [discriminate|by intros [=]]).
  rewrite String.eqb_eq. split; [by intros ->|by intros [= ->]].
Qed.

Lemma strict_eq_string_false v id :
  strict_eq_string v id = false <-> v <> VStr id.
Proof.
  rewrite <- strict_eq_string_true. by destruct (strict_eq_string v id).
Qed.

Lemma find_by_id_first id before r after :
  Forall (other_id id) before ->
  get_field r "id" = Ok (VStr id) ->
  find_by_id id (before ++ r :: after) = Ok r.
Proof.
  intros Hbefore Hr. induction Hbefore as [|m before (v & Hv & Hne) _ IH].
  - cbn. rewrite Hr. cbn. by rewrite String.eqb_refl.
  - cbn [app find_by_id]. rewrite Hv.
    apply strict_eq_string_false in Hne. by rewrite Hne.
Qed.

Lemma find_by_id_undefined id items :
  find_by_id id items = Ok VUndefined <-> Forall (other_id id) items.
Proof.
  induction items as [|m items IH]; [done|]. cbn [find_by_id].
  destruct (get_field m "id") as [v|e] eqn:Hv.
  - destruct (strict_eq_string v id) eqn:Heq.
    + apply strict_eq_string_true in Heq. subst v. split.
      * intros [= ->]. discriminate.
      * intros Hall. apply Forall_cons_1 in Hall as [(v & Hv' & Hne) _].
        congruence.
    + apply strict_eq_string_false in Heq. rewrite IH. split.
      * intros Hall. constructor; [by exists v|done].
      * by intros [_ Hall]%Forall_cons_1.
  - split; [discriminate|].
    intros [(v & Hv' & _) _]%Forall_cons_1. congruence.
Qed.

Lemma find_by_id_found id items r :
  find_by_id id items = Ok r -> r <> VUndefined ->
  r ∈ items /\ get_field r "id" = Ok (VStr id).
Proof.
  intros Hfind Hr. induction items as [|m items IH]; cbn in Hfind.
  - by injection Hfind as <-.
  - destruct (get_field m "id") as [v|e] eqn:Hv; [|done].
    destruct (strict_eq_string v id) eqn:Heq.
    + injection Hfind as <-. apply strict_eq_string_true in Heq. subst v.
      split; [left|done].
    + destruct (IH Hfind) as [Hin Hid]. split; [by right|done].
Qed.

(** ** What a failed connect shows *)

Lemma connectToIndex_failure_shown env filePath w e w' :
  connectToIndex env filePath w = (Throw e, w') ->
  exists after before,
    trace w' =
      after
        ++ Fire :: SetContext "faissViewConnected" false
        :: ShowErrorMessage
             ("Failed to connect to FAISS index: " ++ exn_toString e)
        :: ConsoleError "Failed to connect to FAISS index:" e
        :: before ++ trace w.
Proof.
  intros Hrun.
  pose proof (connectToIndex_blocks env filePath w) as Hblocks.
  pose proof (connect_try_frame env filePath w) as Hframe.
  destruct (connect_try env filePath (mkFrame w None)) as [r f].
  destruct Hblocks as (w'' & Hfin & Hrun'). rewrite Hrun in Hrun'.
  injection Hrun' as <- <-. destruct Hframe as [_ [before Hbefore]].
  apply (connect_finally_facts env (mkFrame _ _)) in Hfin.
  cbn [world tempPath after_catch] in Hfin.
  destruct Hfin as (_ & _ & _ & _ & [after Hafter] & _).
  exists after, before. rewrite Hafter. unfold failed. cbn [trace].
  by rewrite Hbefore.
Qed.

Lemma connect_try_missing_file env filePath w :
  files w !! filePath = None ->
  connect_try env filePath (mkFrame w None)
  = (Throw (Error ("File not found: " ++ filePath)),
     mkFrame
       (mkWorld (faissIndex w) (Some filePath) (memories w) (globalState w)
                (files w)
                (ConsoleLog
                   ("Attempting to connect to FAISS index at: " ++ filePath)
                   :: trace w))
       None).
Proof.
  intros Hfile. unfold connect_try, read_bundle. run. reflexivity.
Qed.

Lemma connectToIndex_missing_file env filePath w :
  files w !! filePath = None ->
  connectToIndex env filePath w
  = (Throw (Error ("File not found: " ++ filePath)),
     failed (Error ("File not found: " ++ filePath))
       (mkWorld (faissIndex w) (Some filePath) (memories w) (globalState w)
                (files w)
                (ConsoleLog
                   ("Attempting to connect to FAISS index at: " ++ filePath)
                   :: trace w))).
Proof.
  intros Hfile. unfold connectToIndex, connect_frame, try_finally, try_catch.
  rewrite (connect_try_missing_file env filePath w Hfile).
  unfold io at 1. rewrite connect_catch_run.
  unfold connect_finally, bind, get_tempPath, ret. reflexivity.
Qed.

(** ** The tree view *)

Lemma getTreeItem_keeps element :
  FaissItem.label (getTreeItem element) = FaissItem.label element /\
  FaissItem.collapsibleState (getTreeItem element)
  = FaissItem.collapsibleState element /\
  FaissItem.command (getTreeItem element) = FaissItem.command element.
Proof.
  unfold getTreeItem.
  repeat match goal with |- context [if ?c then _ else _] => destruct c end;
    done.
Qed.

(** ** Pages *)

Lemma slice_length {A} (l : list A) start n :
  0 <= n -> Z.of_nat (length (View.slice l start (start + n))) <= n.
Proof.
  intros Hn. unfold View.slice. rewrite length_take, length_drop.
  destruct (Z.ltb_spec start 0), (Z.ltb_spec (start + n) 0); lia.
Qed.

Lemma slice_page {A} (l : list A) (k n : nat) :
  View.slice l (Z.of_nat (k * n)) (Z.of_nat (k * n) + Z.of_nat n)
  = take n (drop (k * n) l).
Proof.
  unfold View.slice.
  destruct (Z.ltb_spec (Z.of_nat (k * n)) 0) as [|_]; [lia|].
  destruct (Z.ltb_spec (Z.of_nat (k * n) + Z.of_nat n) 0) as [|_]; [lia|].
  destruct (decide (k * n <= length l)%nat) as [Hin|Hout].
  - replace (Z.to_nat (Z.of_nat (k * n) `min` Z.of_nat (length l)))
      with (k * n)%nat by lia.
    destruct (decide (k * n + n <= length l)%nat).
    + f_equal. lia.
    + rewrite !take_ge; [done| |]; rewrite length_drop; lia.
  - rewrite !drop_ge by lia. by rewrite !take_nil.
Qed.

Lemma chunks_concat {A} (n pages : nat) (l : list A) :
  (length l <= pages * n)%nat ->
  concat (map (fun k => take n (drop (k * n) l)) (seq 0 pages)) = l.
Proof.
  revert l. induction pages as [|pages IH]; intros l Hlen.
  - destruct l; [done|cbn in Hlen; lia].
  - cbn [seq]. rewrite <- seq_shift. cbn [map concat]. rewrite map_map.
    transitivity (take n l ++ drop n l); [|apply take_drop].
    rewrite Nat.mul_0_l, drop_0. apply (f_equal (app (take n l))).
    etrans; [|apply (IH (drop n l)); rewrite length_drop; lia].
    f_equal. apply map_ext. intros k. rewrite drop_drop. do 2 f_equal; lia.
Qed.

Lemma size_pos s : 0 < View.size s.
Proof. by destruct s. Qed.

Lemma totalPages_bounds st :
  let n := View.size (View.itemsPerPage st) in
  let len := Z.of_nat (length (View.filteredMemories st)) in
  0 <= View.totalPages st /\
  len <= View.totalPages st * n /\
  (View.totalPages st - 1) * n < len \/ (len = 0 /\ View.totalPages st = 0).
Proof.
  cbv zeta. unfold View.totalPages.
  pose proof (size_pos (View.itemsPerPage st)) as Hn.
  set (n := View.size (View.itemsPerPage st)) in *.
  set (len := Z.of_nat (length (View.filteredMemories st))).
  assert (0 <= len) by lia.
  pose proof (Z.div_mod (len + n - 1) n ltac:(lia)) as Hdiv.
  pose proof (Z.mod_pos_bound (len + n - 1) n Hn) as Hmod.
  destruct (decide (len = 0)) as [->|Hne].
  - right. split; [done|]. apply Z.div_small. lia.
  - left. split_and!; [apply Z.div_pos; lia|nia|nia].
Qed.

Lemma on_a_page_first s l mode : on_a_page (View.mk 1 s l mode).
Proof. unfold on_a_page. cbn. lia. Qed.

Lemma handle_on_a_page toLowerCase includes memories a st :
  on_a_page st -> on_a_page (View.handle toLowerCase includes memories a st).
Proof.
  intros Hst. destruct a as [v|v|mode|s| | |v|page|key page]; cbn [View.handle].
  - unfold View.filter_change.
    destruct (View.filterM _ _); [apply on_a_page_first|done].
  - unfold View.filter_change.
    destruct (View.filterM _ _); [apply on_a_page_first|done].
  - done.
  - apply on_a_page_first.
  - unfold View.prevPage_click.
    destruct (Z.ltb_spec 1 (View.currentPage st)); [|done].
    unfold on_a_page in *. unfold View.totalPages in *. cbn. lia.
  - unfold View.nextPage_click.
    destruct (Z.ltb_spec (View.currentPage st) (View.totalPages st)); [|done].
    unfold on_a_page in *. unfold View.totalPages in *. cbn.
    unfold View.totalPages in *. lia.
  - unfold View.search_input.
    destruct (View.filterM _ _); [apply on_a_page_first|done].
  - unfold View.pageInput_change. destruct page as [p|]; [|done].
    destruct (Z.leb_spec 1 p); [|done].
    destruct (Z.leb_spec p (View.totalPages st)); [|done].
    unfold on_a_page, View.totalPages in *. cbn. lia.
  - unfold View.pageInput_keypress, View.pageInput_change.
    destruct (String.eqb key "Enter"); [|done].
    destruct page as [p|]; [|done].
    destruct (Z.leb_spec 1 p); [|done].
    destruct (Z.leb_spec p (View.totalPages st)); [|done].
    unfold on_a_page, View.totalPages in *. cbn. lia.
Qed.

Lemma after_on_a_page toLowerCase includes memories actions :
  on_a_page (View.after toLowerCase includes memories actions).
Proof.
  unfold View.after.
  assert (Hinit : on_a_page (View.initial memories))
    by apply on_a_page_first.
  revert Hinit. generalize (View.initial memories).
  induction actions as [|a actions IH]; intros st Hst; [done|].
  cbn [fold_left]. apply IH. by apply handle_on_a_page.
Qed.

Lemma on_a_page_not_empty st :
  on_a_page st -> View.filteredMemories st <> [] -> View.pageMemories st <> [].
Proof.
  intros [Hlo Hhi] Hne.
  pose proof (size_pos (View.itemsPerPage st)) as Hn.
  pose proof (totalPages_bounds st) as Hb. cbv zeta in Hb.
  assert (0 < Z.of_nat (length (View.filteredMemories st))) as Hlen.
  { destruct (View.filteredMemories st); [done|cbn; lia]. }
  intros Hempty. apply (f_equal length) in Hempty. revert Hempty.
  unfold View.pageMemories, View.slice, View.endIndex, View.startIndex.
  rewrite length_take, length_drop. cbn [length].
  destruct (Z.ltb_spec ((View.currentPage st - 1)
                          * View.size (View.itemsPerPage st)) 0); [nia|].
  destruct (Z.ltb_spec ((View.currentPage st - 1)
                          * View.size (View.itemsPerPage st)
                        + View.size (View.itemsPerPage st)) 0); [nia|].
  nia.
Qed.

(** ** Filters *)

Lemma keep_by_true key value m :
  value <> "" -> View.keep_by key value m = Ok true <-> has_value key value m.
Proof.
  intros Hne%String.eqb_neq. unfold View.keep_by, has_value. rewrite Hne.
  destruct (get_field m "metadata") as [md|e]; [|split; [done|]].
  - destruct (get_field md key) as [v|e] eqn:Hv.
    + split.
      * intros [= Heq]. apply strict_eq_string_true in Heq. subst v. eauto.
      * intros (md' & [= <-] & Hv'). rewrite Hv in Hv'. injection Hv' as ->.
        f_equal. by apply strict_eq_string_true.
    + split; [done|]. intros (md' & [= <-] & Hv'). congruence.
  - by intros (md & [=] & _).
Qed.

Lemma filterM_Ok {A} (keep : A -> Res bool) l kept :
  View.filterM keep l = Ok kept ->
  kept `sublist_of` l /\
  forall a, a ∈ kept <-> a ∈ l /\ keep a = Ok true.
Proof.
  revert kept. induction l as [|a l IH]; intros kept; cbn [View.filterM].
  - intros [= <-]. split; [done|]. intros a. split; [|by intros [? _]].
    by intros ?%not_elem_of_nil.
  - destruct (keep a) as [b|e] eqn:Ha; [|done].
    destruct (View.filterM keep l) as [kept'|e]; [|done].
    destruct (IH kept' eq_refl) as [Hsub Hin]. intros [= <-].
    destruct b.
    + split; [by apply sublist_skip|]. intros x.
      rewrite !elem_of_cons, Hin. split.
      * intros [->|[? ?]]; eauto.
      * intros [[->|?] ?]; eauto.
    + split; [by apply sublist_cons|]. intros x.
      rewrite elem_of_cons, Hin. split.
      * intros [? ?]; eauto.
      * intros [[->|?] ?]; [congruence|eauto].
Qed.

Lemma filterM_Throw {A} (keep : A -> Res bool) l a e :
  a ∈ l -> keep a = Throw e -> exists e', View.filterM keep l = Throw e'.
Proof.
  intros Hin Ha. induction l as [|b l IH]; [by apply not_elem_of_nil in Hin|].
  cbn [View.filterM]. apply elem_of_cons in Hin as [<-|Hin].
  - rewrite Ha. eauto.
  - destruct (keep b) as [c|e1]; [|eauto].
    destruct (IH Hin) as [e' ->]. eauto.
Qed.

Lemma filterM_all {A} (keep : A -> Res bool) l :
  (forall a, keep a = Ok true) -> View.filterM keep l = Ok l.
Proof.
  intros Hkeep. induction l as [|a l IH]; [done|].
  cbn [View.filterM]. by rewrite Hkeep, IH.
Qed.

(** * More of the provider: properties *)

(** ** getMemoryById *)

(** X1.  On an array of records, getMemoryById answers with the first
    record whose [id] is the string asked for: the record at place [i]
    when it has that id and every record before it has a readable,
    different id.  The world is left as it was. *)
Theorem getMemoryById_first_match id w items i r :
  memories w = VArr items ->
  items !! i = Some r ->
  get_field r "id" = Ok (VStr id) ->
  (forall j m, (j < i)%nat -> items !! j = Some m -> other_id id m) ->
  getMemoryById id w = (Ok r, w).
Proof.
  intros Hmem Hi Hr Hbefore. unfold getMemoryById. rewrite Hmem.
  rewrite <- (take_drop_middle items i r Hi).
  rewrite find_by_id_first; [done| |done].
  apply Forall_lookup. intros j m Hj.
  apply lookup_take_Some in Hj as [Hj Hlt]. by apply (Hbefore j).
Qed.

Lemma getMemoryById_first_match_witness :
  getMemoryById "b" (connected sample_bundle)
  = (Ok record_b, connected sample_bundle).
Proof.
  apply (getMemoryById_first_match
           "b" (connected sample_bundle)
           [record_a; record_b; record_c] 1%nat record_b);
    [reflexivity | reflexivity | reflexivity |].
  intros j m Hj Hm. destruct j as [|j]; [|lia].
  injection Hm as <-. exists (VStr "a"). split; [reflexivity|discriminate].
Defined.

(** X2.  When the records carry pairwise different string ids, looking up
    the id of the record at any place answers with that very record. *)
Theorem getMemoryById_unique_ids w items ids i r id :
  memories w = VArr items ->
  Forall2 (fun memory s => get_field memory "id" = Ok (VStr s)) items ids ->
  NoDup ids ->
  items !! i = Some r ->
  ids !! i = Some id ->
  getMemoryById id w = (Ok r, w).
Proof.
  intros Hmem Hids Hnodup Hi Hid.
  assert (Hr : get_field r "id" = Ok (VStr id)).
  { by apply (Forall2_lookup_lr _ _ _ i r id Hids). }
  unfold getMemoryById. rewrite Hmem.
  rewrite <- (take_drop_middle items i r Hi).
  rewrite find_by_id_first; [done| |done].
  apply Forall_lookup. intros j m Hj.
  apply lookup_take_Some in Hj as [Hj Hlt].
  destruct (Forall2_lookup_l _ _ _ j m Hids Hj) as (s & Hs & Hm).
  exists (VStr s). split; [done|]. intros [= ->].
  pose proof (NoDup_lookup _ _ _ _ Hnodup Hs Hid). lia.
Qed.

Lemma getMemoryById_unique_ids_witness :
  getMemoryById "c" (connected sample_bundle)
  = (Ok record_c, connected sample_bundle).
Proof.
  apply (getMemoryById_unique_ids
           (connected sample_bundle) [record_a; record_b; record_c]
           ["a"; "b"; "c"] 2%nat record_c "c");
    [reflexivity | | | reflexivity | reflexivity].
  - repeat constructor.
  - apply (bool_decide_unpack _). vm_compute. exact I.
Defined.

(** X3.  On an array of records, getMemoryById answers [undefined], and
    leaves the world alone, exactly when every record has a readable id
    that is not the string asked for (so also when there are no records):
    a record that is [null] rules that answer out. *)
Theorem getMemoryById_undefined_iff id w items :
  memories w = VArr items ->
  getMemoryById id w = (Ok VUndefined, w) <-> Forall (other_id id) items.
Proof.
  intros Hmem. unfold getMemoryById. rewrite Hmem.
  rewrite <- find_by_id_undefined. split; [by intros [= ->]|by intros ->].
Qed.

Lemma getMemoryById_undefined_iff_witness :
  getMemoryById "z" (connected sample_bundle)
  = (Ok VUndefined, connected sample_bundle)
  <-> Forall (other_id "z") [record_a; record_b; record_c].
Proof.
  apply (getMemoryById_undefined_iff
           "z" (connected sample_bundle) [record_a; record_b; record_c]).
  reflexivity.
Defined.

(** X4.  Whatever getMemoryById finds on an array of records is one of
    those records, an object whose [id] is the string asked for, and the
    world is left as it was. *)
Theorem getMemoryById_sound id w items r w' :
  memories w = VArr items ->
  getMemoryById id w = (Ok r, w') ->
  r <> VUndefined ->
  w' = w /\ r ∈ items /\
  exists fields, r = VObj fields /\ assoc "id" fields = Some (VStr id).
Proof.
  intros Hmem Hrun Hr. unfold getMemoryById in Hrun. rewrite Hmem in Hrun.
  injection Hrun as Hfind <-.
  destruct (find_by_id_found id items r Hfind Hr) as [Hin Hid].
  split_and!; try done.
  destruct r; try discriminate. exists fields. split; [done|].
  cbn in Hid. destruct (assoc "id" fields); [|discriminate].
  cbn in Hid. congruence.
Qed.

Lemma getMemoryById_sound_witness :
  connected sample_bundle = connected sample_bundle /\
  record_b ∈ [record_a; record_b; record_c] /\
  exists fields,
    record_b = VObj fields /\ assoc "id" fields = Some (VStr "b").
Proof.
  apply (getMemoryById_sound
           "b" (connected sample_bundle) [record_a; record_b; record_c]
           record_b (connected sample_bundle));
    [reflexivity | reflexivity | discriminate].
Defined.



(** X6.  After a successful connect to a bundle whose document has no
    [memories] field, getMemoryById throws a [TypeError] for every id:
    [this.memories] is [undefined] and has no [find]. *)
Theorem getMemoryById_without_memories
        env filePath w content fields payload buf staged h :
  files w !! filePath = Some content ->
  readFileSync_error env filePath = None ->
  JSON_parse env (string_of_list_byte content) = Ok (VObj fields) ->
  assoc "memories" fields = None ->
  assoc "index" fields = Some payload ->
  truthy payload = true ->
  Buffer_from_base64 env payload = Ok buf ->
  writeFileSync_outcome env (staging_path env) buf = (None, Some staged) ->
  staged <> [] ->
  Index_read env (staging_path env) (Some staged) = Ok h ->
  exists w',
    connectToIndex env filePath w = (Ok tt, w') /\
    forall id,
      getMemoryById id w'
      = (Throw (TypeError
                  "Cannot read properties of undefined (reading 'find')"),
         w').
Proof.
  intros Hfile Hread Hparse Hmems Hindex Htruthy Hbuf Hwrite Hstaged Hopen.
  destruct (connect_try_without_memories
              env filePath w content fields payload buf staged h)
    as (f & Htry & _ & _ & Hm & _); try done.
  destruct (connectToIndex_success env filePath w f Htry)
    as (w' & Hrun & _ & _ & Hm' & _).
  exists w'. split; [done|]. intros id. unfold getMemoryById.
  by rewrite Hm', Hm.
Qed.

Lemma getMemoryById_without_memories_witness :
  exists w',
    connectToIndex (sample_env bundle_without_memories failing)
                   "/data/bundle.json" fresh
    = (Ok tt, w') /\
    forall id,
      getMemoryById id w'
      = (Throw (TypeError
                  "Cannot read properties of undefined (reading 'find')"),
         w').
Proof.
  apply (getMemoryById_without_memories
           (sample_env bundle_without_memories failing) "/data/bundle.json"
           fresh [Byte.x7b; Byte.x7d]
           [("index", VStr "SXhGMgIAAAA=")] (VStr "SXhGMgIAAAA=")
           [Byte.x49; Byte.x78; Byte.x46; Byte.x32]
           [Byte.x49; Byte.x78; Byte.x46; Byte.x32] 1%N);
    [reflexivity | reflexivity | reflexivity | reflexivity | reflexivity
    | reflexivity | reflexivity | reflexivity | discriminate | reflexivity].
Defined.

(** ** searchVectors without records *)

(** X7.  In a connected state whose [memories] is [undefined], a search
    for which the engine finds at least one neighbour does not return
    results: reading the first position off [undefined] throws a
    [TypeError], which searchVectors catches, shows as "Search failed"
    and turns into [null]; the connection is left as it was. *)
Theorem searchVectors_without_memories env vector w h res p ps :
  faissIndex w = Some h ->
  memories w = VUndefined ->
  Index_search env h vector 5 = Ok res ->
  indices res = p :: ps ->
  exists e w',
    e = TypeError ("Cannot read properties of undefined (reading '"
                   ++ pretty p ++ "')") /\
    searchVectors env vector w = (Ok None, w') /\
    same_connection w w' /\
    trace w' =
      ShowErrorMessage ("Search failed: " ++ exn_toString e)
        :: ConsoleError "Search failed:" e
        :: EngineSearch h vector 5 :: trace w.
Proof.
  intros Hh Hmem Hres Hps. unfold searchVectors. rewrite Hh.
  unfold try_catch, bind at 1, engine_search, bind at 1, emit, lift.
  rewrite Hres, Hps. unfold bind at 1. cbn [mapM].
  unfold bind at 1, memory_at at 1. cbn [memories]. rewrite Hmem.
  cbn [get_index]. eexists _, _. split; [reflexivity|].
  split; [reflexivity|]. by cbn.
Qed.

Lemma searchVectors_without_memories_witness :
  exists e w',
    e = TypeError ("Cannot read properties of undefined (reading '"
                   ++ pretty 2 ++ "')") /\
    searchVectors (sample_env bundle_without_memories (answering nearest_c))
                  [1; 0]%Q (connected bundle_without_memories)
    = (Ok None, w') /\
    same_connection (connected bundle_without_memories) w' /\
    trace w' =
      ShowErrorMessage ("Search failed: " ++ exn_toString e)
        :: ConsoleError "Search failed:" e
        :: EngineSearch 1%N [1; 0]%Q 5
        :: trace (connected bundle_without_memories).
Proof.
  apply (searchVectors_without_memories
           (sample_env bundle_without_memories (answering nearest_c))
           [1; 0]%Q (connected bundle_without_memories) 1%N nearest_c 2 []);
    reflexivity.
Defined.

(** ** The states of the provider *)



(** ** refresh *)

(** X9.  A refresh while the retained bundle file no longer exists does
    not fail; once the connect it starts has ended, the provider is
    disconnected (no engine handle, no path, no records), the persisted
    path is cleared, no file has been touched, and the "File not found"
    error has been shown. *)
Theorem refresh_vanished_bundle env w p :
  indexPath w = Some p ->
  p <> "" ->
  files w !! p = None ->
  exists w',
    refresh env w = (Ok tt, w') /\
    faissIndex w' = None /\
    indexPath w' = None /\
    memories w' = VArr [] /\
    globalState w' !! "faissDataPath" = None /\
    files w' = files w /\
    trace w' =
      Fire :: SetContext "faissViewConnected" false
        :: ShowErrorMessage
             ("Failed to connect to FAISS index: Error: File not found: " ++ p)
        :: ConsoleError "Failed to connect to FAISS index:"
             (Error ("File not found: " ++ p))
        :: ConsoleLog ("Attempting to connect to FAISS index at: " ++ p)
        :: trace w.
Proof.
  intros Hp Hne Hfile. unfold refresh. rewrite Hp.
  apply String.eqb_neq in Hne. rewrite Hne. cbn [negb].
  unfold try_catch. rewrite (connectToIndex_missing_file env p w Hfile).
  eexists. split; [reflexivity|]. unfold failed.
  cbn [faissIndex indexPath memories globalState files trace].
  split_and!; try done. apply lookup_delete_eq.
Qed.

Lemma refresh_vanished_bundle_witness :
  exists w',
    refresh (sample_env sample_bundle failing) vanished = (Ok tt, w') /\
    faissIndex w' = None /\
    indexPath w' = None /\
    memories w' = VArr [] /\
    globalState w' !! "faissDataPath" = None /\
    files w' = files vanished /\
    trace w' =
      Fire :: SetContext "faissViewConnected" false
        :: ShowErrorMessage
             ("Failed to connect to FAISS index: Error: File not found: "
              ++ "/data/bundle.json")
        :: ConsoleError "Failed to connect to FAISS index:"
             (Error ("File not found: " ++ "/data/bundle.json"))
        :: ConsoleLog ("Attempting to connect to FAISS index at: "
                       ++ "/data/bundle.json")
        :: trace vanished.
Proof.
  apply (refresh_vanished_bundle
           (sample_env sample_bundle failing) vanished "/data/bundle.json");
    [reflexivity | discriminate | reflexivity].
Defined.

(** X10.  A refresh of a provider that retains a non-empty path never
    fails, and the connect it starts ends in one of two ways: connected
    again to that same path, which is then the persisted path, or
    disconnected with the records emptied and the persisted path
    cleared. *)
Theorem refresh_outcomes env w p :
  indexPath w = Some p ->
  p <> "" ->
  exists w',
    refresh env w = (Ok tt, w') /\
    ((is_Some (faissIndex w') /\
      indexPath w' = Some p /\
      globalState w' !! "faissDataPath" = Some p) \/
     (faissIndex w' = None /\
      indexPath w' = None /\
      memories w' = VArr [] /\
      globalState w' !! "faissDataPath" = None)).
Proof.
  intros Hp Hne. unfold refresh. rewrite Hp.
  apply String.eqb_neq in Hne. rewrite Hne. cbn [negb].
  unfold try_catch.
  pose proof (connectToIndex_outcomes env p w) as Hout.
  destruct (connectToIndex env p w) as [[[]|e] w']; cbn in Hout;
    eexists; (split; [reflexivity|]); [by left|by right].
Qed.

Lemma refresh_outcomes_witness :
  exists w',
    refresh (sample_env sample_bundle failing) (connected sample_bundle)
    = (Ok tt, w') /\
    ((is_Some (faissIndex w') /\
      indexPath w' = Some "/data/bundle.json" /\
      globalState w' !! "faissDataPath" = Some "/data/bundle.json") \/
     (faissIndex w' = None /\
      indexPath w' = None /\
      memories w' = VArr [] /\
      globalState w' !! "faissDataPath" = None)).
Proof.
  apply (refresh_outcomes (sample_env sample_bundle failing)
                          (connected sample_bundle) "/data/bundle.json");
    [reflexivity | discriminate].
Defined.



(** ** The connect command and the saved path *)

(** X12.  The connect command with a chosen file ends like the connect it
    makes: on success the provider is connected to that file and the
    persisted path is that file; on failure the persisted path is cleared,
    although the command had stored the file before connecting.  With the
    dialog dismissed or nothing chosen the command succeeds and leaves the
    connection as it was. *)
Theorem connect_command_outcomes env inspect selection w :
  exists r w',
    connect_command env inspect selection w = (r, w') /\
    match selection with
    | Some (fsPath :: _) => connect_outcome fsPath r w'
    | _ => r = Ok tt /\ same_connection w w'
    end.
Proof.
  unfold connect_command. destruct selection as [[|fsPath rest]|].
  - eexists _, _. split; [reflexivity|]. by cbn.
  - unfold bind, console_log, globalState_update, emit.
    match goal with
    | |- context [connectToIndex env fsPath ?w0] =>
        pose proof (connectToIndex_outcomes env fsPath w0) as Hout;
        destruct (connectToIndex env fsPath w0) as [r w']
    end.
    by exists r, w'.
  - eexists _, _. split; [reflexivity|]. by cbn.
Qed.

(** X13.  Restoring the saved path at activation never fails.  Without a
    saved path (or with an empty one) nothing changes.  With one, the
    provider ends connected to exactly that path, which stays persisted,
    or it ends disconnected with the persisted path cleared, and then the
    user has been shown the failure twice: by the connect itself and by
    the handler of the restoring. *)
Theorem restore_saved_path_outcomes env w :
  exists w',
    restore_saved_path env w = (Ok tt, w') /\
    match globalState w !! "faissDataPath" with
    | Some p =>
        if String.eqb p "" then w' = w
        else
          (is_Some (faissIndex w') /\
           indexPath w' = Some p /\
           globalState w' !! "faissDataPath" = Some p) \/
          (exists e rest,
              faissIndex w' = None /\
              indexPath w' = None /\
              memories w' = VArr [] /\
              globalState w' !! "faissDataPath" = None /\
              trace w' =
                ShowErrorMessage
                  ("Failed to connect to saved FAISS index: "
                   ++ exn_toString e)
                  :: ConsoleError "Failed to connect to saved path:" e
                  :: rest /\
              ShowErrorMessage
                ("Failed to connect to FAISS index: " ++ exn_toString e)
                ∈ rest)
    | None => w' = w
    end.
Proof.
  unfold restore_saved_path.
  destruct (globalState w !! "faissDataPath") as [p|]; [|by exists w].
  destruct (String.eqb p "") eqn:Hp; cbn [negb]; [by exists w|].
  unfold bind, try_catch, console_log, emit.
  match goal with
  | |- context [connectToIndex env p ?w0] =>
      pose proof (connectToIndex_outcomes env p w0) as Hout;
      destruct (connectToIndex env p w0) as [[[]|e] w1] eqn:Hrun
  end; cbn in Hout.
  - eexists. split; [reflexivity|]. by left.
  - eexists. split; [reflexivity|]. right. exists e.
    destruct (connectToIndex_failure_shown _ _ _ _ _ Hrun)
      as (after & before & Htrace).
    eexists. unfold console_error, showErrorMessage, emit.
    cbn [faissIndex indexPath memories globalState trace fst snd].
    destruct Hout as (Hi & Hp' & Hm & Hg). split_and!; try done.
    rewrite Htrace. set_solver.
Qed.

(** ** The tree view *)

(** X14.  getTreeItem can be applied to the same element any number of
    times: the second application changes nothing. *)
Theorem getTreeItem_idempotent element :
  getTreeItem (getTreeItem element) = getTreeItem element.
Proof.
  unfold getTreeItem at 2.
  destruct (String.eqb (FaissItem.label element) "Refresh") eqn:H1;
    [by unfold getTreeItem; cbn; rewrite H1|].
  destruct (String.eqb (FaissItem.label element) "View Vectors") eqn:H2;
    [by unfold getTreeItem; cbn; rewrite H1, H2|].
  destruct (String.eqb (FaissItem.label element) "Disconnect") eqn:H3;
    [by unfold getTreeItem; cbn; rewrite H1, H2, H3|].
  destruct (String.prefix "Connect to" (FaissItem.label element)) eqn:H4;
    [by unfold getTreeItem; cbn [decorate FaissItem.label];
        rewrite H1, H2, H3, H4|].
  unfold getTreeItem. by rewrite H1, H2, H3, H4.
Qed.

(** X15.  getChildren never fails and changes nothing of the connection.
    Without engine handle it offers a single entry, the one that runs the
    connect command, whatever element is asked about.  With one, a failure
    of the engine to report its dimension or its count is logged and
    becomes the single entry "Error loading index information". *)
Theorem getChildren_never_fails info element w :
  exists items w',
    getChildren info element w = (Ok items, w') /\
    same_connection w w' /\
    (faissIndex w = None ->
     w' = w /\
     exists item,
       items = [item] /\
       FaissItem.command item
       = Some (Command.mk "vscode-faiss-viewer.connect"
                          "Connect to FAISS Index" [])) /\
    (forall h e,
        faissIndex w = Some h -> element = None ->
        (getDimension info h = Throw e \/
         (exists d, getDimension info h = Ok d) /\ ntotal info h = Throw e) ->
        items = [new_FaissItem "Error loading index information"
                               CollapsibleNone None] /\
        trace w' = ConsoleError "Error getting index information:" e
                     :: trace w).
Proof.
  unfold getChildren. destruct (faissIndex w) as [h|] eqn:Hh.
  - destruct element as [el|].
    + eexists _, _. split; [reflexivity|]. split; [by unfold same_connection|].
      split; [done|]. by intros h' e _ [=].
    + unfold try_catch, bind, lift, ret, console_error, emit.
      destruct (getDimension info h) as [d|e1] eqn:Hd;
        [destruct (ntotal info h) as [n|e2] eqn:Hn|].
      * eexists _, _. split; [reflexivity|].
        split; [by unfold same_connection|].
        split; [done|]. intros h' e [= <-] _ [Hd'|[_ Hn']]; congruence.
      * eexists _, _. split; [reflexivity|].
        split; [by unfold same_connection; cbn|]. split; [done|].
        intros h' e [= <-] _ [Hd'|[_ Hn']]; [congruence|].
        rewrite Hn in Hn'. by injection Hn' as ->.
      * eexists _, _. split; [reflexivity|].
        split; [by unfold same_connection; cbn|]. split; [done|].
        intros h' e [= <-] _ [Hd'|[[d Hd'] _]]; [|congruence].
        rewrite Hd in Hd'. by injection Hd' as ->.
  - eexists _, _. split; [reflexivity|].
    split; [by unfold same_connection; rewrite Hh|].
    split; [|done]. intros _. split; [done|]. by eexists.
Qed.

(** X16.  Among the entries getChildren returns, getTreeItem gives an icon
    exactly to those that carry a command: the dimension, count and error
    lines are never taken for one of the decorated labels. *)
Theorem tree_icons_mark_commands info element w items w' item :
  getChildren info element w = (Ok items, w') ->
  item ∈ items ->
  is_Some (FaissItem.iconPath (getTreeItem item))
  <-> is_Some (FaissItem.command item).
Proof.
  unfold getChildren. destruct (faissIndex w) as [h|].
  - destruct element as [el|].
    + intros [= <- <-] Hin. by apply not_elem_of_nil in Hin.
    + unfold try_catch, bind, lift, ret, console_error, emit.
      destruct (getDimension info h) as [d|e1];
        [destruct (ntotal info h) as [n|e2]|].
      * intros [= <- <-] Hin.
        repeat (apply elem_of_cons in Hin as [->|Hin]);
          [| |by cbn; split; eauto|by apply not_elem_of_nil in Hin].
        -- unfold getTreeItem, new_FaissItem. cbn [FaissItem.label].
           cbn. split; intros [x Hx]; discriminate.
        -- unfold getTreeItem, new_FaissItem. cbn [FaissItem.label].
           cbn. split; intros [x Hx]; discriminate.
      * intros [= <- <-] Hin. apply list_elem_of_singleton in Hin as ->.
        cbn. split; intros [x Hx]; discriminate.
      * intros [= <- <-] Hin. apply list_elem_of_singleton in Hin as ->.
        cbn. split; intros [x Hx]; discriminate.
  - intros [= <- <-] Hin. apply list_elem_of_singleton in Hin as ->.
    cbn. split; eauto.
Qed.

Lemma tree_icons_mark_commands_witness :
  is_Some (FaissItem.iconPath (getTreeItem connect_entry))
  <-> is_Some (FaissItem.command connect_entry).
Proof.
  apply (tree_icons_mark_commands
           sample_info None fresh [connect_entry] fresh connect_entry);
    [reflexivity|].
  apply list_elem_of_singleton. reflexivity.
Defined.

(** ** The pages of the vector view *)

(** X17.  The pages of the view partition the filtered records: put one
    after the other, pages 1 to [totalPages] give back the filtered list
    in its order, and no page holds more than [itemsPerPage] records. *)
Theorem pages_partition st :
  concat (map (fun k => View.pageMemories (View.set_page (Z.of_nat k) st))
              (seq 1 (Z.to_nat (View.totalPages st))))
  = View.filteredMemories st /\
  forall page,
    Z.of_nat (length (View.pageMemories (View.set_page page st)))
    <= View.size (View.itemsPerPage st).
Proof.
  pose proof (size_pos (View.itemsPerPage st)) as Hn.
  split.
  - rewrite <- seq_shift, map_map.
    etrans;
      [|apply (chunks_concat (Z.to_nat (View.size (View.itemsPerPage st)))
                             (Z.to_nat (View.totalPages st)))].
    + f_equal. apply map_ext. intros k.
      unfold View.pageMemories, View.endIndex, View.startIndex, View.set_page.
      cbn [View.currentPage View.itemsPerPage View.filteredMemories].
      rewrite <- slice_page. f_equal; lia.
    + pose proof (totalPages_bounds st) as Hb. cbv zeta in Hb. nia.
  - intros page.
    unfold View.pageMemories, View.endIndex, View.set_page.
    cbn [View.currentPage View.itemsPerPage View.filteredMemories].
    apply slice_length. lia.
Qed.

(** X18.  Whatever the user does on the page, the current page is at
    least 1; while some record passes the filters it is at most
    [totalPages] and the slice that updateView takes for it is not empty;
    when none does, the view is on page 1 of 0. *)
Theorem view_page_never_empty toLowerCase includes memories actions :
  let st := View.after toLowerCase includes memories actions in
  1 <= View.currentPage st /\
  (View.filteredMemories st <> [] ->
   View.currentPage st <= View.totalPages st /\ View.pageMemories st <> []) /\
  (View.filteredMemories st = [] ->
   View.currentPage st = 1 /\ View.totalPages st = 0).
Proof.
  cbv zeta.
  pose proof (after_on_a_page toLowerCase includes memories actions) as Hst.
  set (st := View.after toLowerCase includes memories actions) in *.
  pose proof (totalPages_bounds st) as Hb. cbv zeta in Hb.
  pose proof (size_pos (View.itemsPerPage st)) as Hn.
  destruct Hst as [Hlo Hhi]. split; [done|]. split.
  - intros Hne. split; [|by apply on_a_page_not_empty].
    assert (0 < Z.of_nat (length (View.filteredMemories st))).
    { destruct (View.filteredMemories st); [done|cbn; lia]. }
    nia.
  - intros Hempty. rewrite Hempty in Hb. cbn in Hb.
    assert (View.totalPages st = 0) by nia. lia.
Qed.

(** X19.  Whatever the user did before, the [disabled] flag that
    updateView computes for the Previous button holds exactly when a click
    on that button does nothing, and so does the flag of the Next button
    as long as some record passes the filters; with no record left the
    Next button is enabled although a click on it does nothing. *)
Theorem view_buttons_match_clicks toLowerCase includes memories actions :
  let st := View.after toLowerCase includes memories actions in
  (View.prevDisabled st = true <-> View.prevPage_click st = st) /\
  (View.filteredMemories st <> [] ->
   View.nextDisabled st = true <-> View.nextPage_click st = st) /\
  (View.filteredMemories st = [] ->
   View.nextDisabled st = false /\ View.nextPage_click st = st).
Proof.
  cbv zeta.
  pose proof (after_on_a_page toLowerCase includes memories actions) as Hst.
  set (st := View.after toLowerCase includes memories actions) in *.
  pose proof (totalPages_bounds st) as Hb. cbv zeta in Hb.
  pose proof (size_pos (View.itemsPerPage st)) as Hn.
  destruct Hst as [Hlo Hhi].
  assert (Hmove : forall p, View.set_page p st = st -> p = View.currentPage st).
  { intros p Hp. apply (f_equal View.currentPage) in Hp. by cbn in Hp. }
  split_and!.
  - unfold View.prevDisabled, View.prevPage_click. rewrite Z.eqb_eq.
    destruct (Z.ltb_spec 1 (View.currentPage st)); split; try done; try lia.
    intros Hp%Hmove. lia.
  - intros Hne.
    assert (0 < Z.of_nat (length (View.filteredMemories st))).
    { destruct (View.filteredMemories st); [done|cbn; lia]. }
    unfold View.nextDisabled, View.nextPage_click. rewrite Z.eqb_eq.
    destruct (Z.ltb_spec (View.currentPage st) (View.totalPages st));
      split; try done; try lia; try nia.
    intros Hp%Hmove. lia.
  - intros Hempty. rewrite Hempty in Hb. cbn in Hb.
    assert (View.totalPages st = 0) as Ht by nia.
    unfold View.nextDisabled, View.nextPage_click. rewrite Ht.
    split; [apply Z.eqb_neq; lia|].
    by destruct (Z.ltb_spec (View.currentPage st) 0); [lia|].
Qed.

(** ** The filters of the vector view *)

(** X20.  When the role (or thread) filter is set to a value and the
    filtering ends normally, the view goes to page 1 and shows, in their
    original order, exactly the records whose metadata hold that value.
    The filter always starts from all the records of the view. *)
Theorem filter_change_selects memories key value st kept :
  value <> "" ->
  View.filterM (View.keep_by key value) memories = Ok kept ->
  View.filter_change memories key value st
  = View.mk 1 (View.itemsPerPage st) kept (View.currentViewMode st) /\
  kept `sublist_of` memories /\
  forall m, m ∈ kept <-> m ∈ memories /\ has_value key value m.
Proof.
  intros Hne Hfilter. unfold View.filter_change. rewrite Hfilter.
  destruct (filterM_Ok _ _ _ Hfilter) as [Hsub Hin].
  split_and!; try done. intros m. rewrite Hin.
  by rewrite keep_by_true.
Qed.

Lemma filter_change_selects_witness :
  View.filter_change [record_user; record_assistant] "role" "user"
                     (View.initial [record_user; record_assistant])
  = View.mk 1 View.Ten [record_user] "grid" /\
  [record_user] `sublist_of` [record_user; record_assistant] /\
  forall m,
    m ∈ [record_user]
    <-> m ∈ [record_user; record_assistant] /\ has_value "role" "user" m.
Proof.
  apply (filter_change_selects
           [record_user; record_assistant] "role" "user"
           (View.initial [record_user; record_assistant]) [record_user]);
    [discriminate | reflexivity].
Defined.

(** X21.  One record without metadata is enough to break the filters:
    with such a record in the view, setting the role (or thread) filter to
    any value makes the filtering throw, and the view stays as it was. *)
Theorem filter_change_without_metadata memories key value st m metadata :
  value <> "" ->
  m ∈ memories ->
  get_field m "metadata" = Ok metadata ->
  metadata = VUndefined \/ metadata = VNull ->
  (exists e, View.filterM (View.keep_by key value) memories = Throw e) /\
  View.filter_change memories key value st = st.
Proof.
  intros Hne%String.eqb_neq Hin Hmd Hnone.
  assert (exists e, View.keep_by key value m = Throw e) as [e He].
  { unfold View.keep_by. rewrite Hne, Hmd.
    destruct Hnone as [-> | ->]; cbn; eauto. }
  destruct (filterM_Throw _ _ _ _ Hin He) as [e' Hthrow].
  split; [eauto|]. unfold View.filter_change. by rewrite Hthrow.
Qed.

Lemma filter_change_without_metadata_witness :
  (exists e,
      View.filterM (View.keep_by "role" "user") [record_user; record_a]
      = Throw e) /\
  View.filter_change [record_user; record_a] "role" "user"
                     (View.initial [record_user; record_a])
  = View.initial [record_user; record_a].
Proof.
  apply (filter_change_without_metadata
           [record_user; record_a] "role" "user"
           (View.initial [record_user; record_a]) record_a VUndefined);
    [discriminate | | reflexivity | by left].
  apply elem_of_cons. right. apply list_elem_of_singleton. reflexivity.
Defined.

(** X22.  Setting a filter back to "All" never fails and puts every
    record of the view back, on page 1, whatever the records are: also
    those that the other filter or the search box had hidden. *)
Theorem filter_change_all memories key st :
  View.filter_change memories key "" st
  = View.mk 1 (View.itemsPerPage st) memories (View.currentViewMode st).
Proof.
  unfold View.filter_change. rewrite filterM_all; [done|].
  intros m. unfold View.keep_by. by rewrite String.eqb_refl.
Qed.
